(** * The vga16fb renderer: palette quantizer and planar flush engine

    A shallow embedding of [src/plugins/renderers/vga16fb/plugin.c].

    Conventions.
    - C integers are values of [Z]; every expression whose C type is narrower
      than its mathematical value is wrapped explicitly ([u8], [u16], [u32],
      [u64]; [unsigned long] is taken to be 64 bits wide).
    - The three palette arrays [red], [green], [blue] are lists of [Z].
    - Hardware and collaborator calls (VGA register writes, the colour-map
      ioctl, terminal mode changes, stores into the mapped frame buffer) are
      recorded as a list of [event]s, oldest first.  A function of the source
      that performs such calls returns the events it issued next to its
      result.  [ply_trace] only logs and is not recorded. *)

From Stdlib Require Import ZArith List Lia Bool.
Import ListNotations.

Local Open Scope Z_scope.

Set Default Proof Using "Type".

(** ** Machine integers *)

Definition u8 (z : Z) : Z := z mod 2 ^ 8.
Definition u16 (z : Z) : Z := z mod 2 ^ 16.
Definition u32 (z : Z) : Z := z mod 2 ^ 32.
Definition u64 (z : Z) : Z := z mod 2 ^ 64.

(** ** C arrays held in a struct *)

(** An access outside the array is undefined in C; here such a read gives 0
    and such a write is dropped.  With at most 16 slots in use the classifier
    stays inside its 16-element arrays. *)

Definition array_get (a : list Z) (i : Z) : Z := nth (Z.to_nat i) a 0.

Fixpoint array_set_nat (a : list Z) (n : nat) (v : Z) : list Z :=
  match a, n with
  | [], _ => []
  | _ :: rest, O => v :: rest
  | z :: rest, S n' => z :: array_set_nat rest n' v
  end.

Definition array_set (a : list Z) (i v : Z) : list Z :=
  array_set_nat a (Z.to_nat i) v.

(** ** Data model *)

(** Modelled from the spec: [ply-rectangle.h] is not part of the sources.  A
    rectangle has an origin, a width and a height; [flush_area] converts all
    four to [unsigned long]. *)
Record ply_rectangle_t := mk_rectangle {
  rect_x : Z;
  rect_y : Z;
  rect_width : Z;
  rect_height : Z
}.

(** Modelled from the spec: [ply-region.c] is not part of the sources.  The
    damaged region is "a mutable set of rectangles"; it is kept as the list of
    its rectangles in the order the collaborator hands them out. *)
Definition ply_region_t := list ply_rectangle_t.

(** Modelled from the spec: adding a rectangle marks it as damaged. *)
Definition ply_region_add_rectangle (region : ply_region_t)
    (rectangle : ply_rectangle_t) : ply_region_t :=
  region ++ [rectangle].

(** Modelled from the spec: the rectangles of the region, in the order the
    collaborator provides. *)
Definition ply_region_get_sorted_rectangle_list (region : ply_region_t)
    : list ply_rectangle_t :=
  region.

(** Modelled from the spec: clearing empties the damaged-region set. *)
Definition ply_region_clear (region : ply_region_t) : ply_region_t := [].

(** Modelled from the spec: [ply-pixel-buffer.c] is not part of the sources.
    A pixel buffer supplies the ARGB32 words (addressed by their offset from
    the pointer [ply_pixel_buffer_get_argb32_data] returns) and owns the
    region of updated areas. *)
Record ply_pixel_buffer_t := mk_pixel_buffer {
  argb32_data : Z -> Z;
  updated_areas : ply_region_t
}.

Definition ply_pixel_buffer_get_argb32_data (b : ply_pixel_buffer_t) :=
  argb32_data b.
Definition ply_pixel_buffer_get_updated_areas (b : ply_pixel_buffer_t) :=
  updated_areas b.

(** [struct _ply_renderer_head]. *)
Record ply_renderer_head_t := mk_head {
  pixel_buffer : ply_pixel_buffer_t;
  area : ply_rectangle_t;
  map_address : Z;
  size : Z;
  red : list Z;
  green : list Z;
  blue : list Z;
  palette_size : Z
}.

(** [struct _ply_renderer_backend], without the event loop, the terminal
    handle, the device name and the input source, which none of the modelled
    functions reads. *)
Record ply_renderer_backend_t := mk_backend {
  device_fd : Z;
  head : ply_renderer_head_t;
  row_stride : Z;
  is_active : bool
}.

(** [MAP_FAILED] is [(void * ) -1]. *)
Definition MAP_FAILED : Z := -1.

(** [struct fb_cmap] as handed to [FBIOPUTCMAP]; [transp] is always [NULL]. *)
Record fb_cmap := mk_cmap {
  cmap_start : Z;
  cmap_len : Z;
  cmap_red : list Z;
  cmap_green : list Z;
  cmap_blue : list Z
}.

(** The one terminal mode the renderer names. *)
Inductive ply_terminal_mode_t :=
| PLY_TERMINAL_MODE_GRAPHICS.

(** What the code does to the outside world.  The [vga_*] operations are the
    register writes of [vga.h]; [fb_store] is the byte store [*p |= 1] into
    the mapped device memory, with the address and the byte written. *)
Inductive event :=
| ply_terminal_set_mode (mode : ply_terminal_mode_t)
| ply_terminal_set_unbuffered_input
| vga_enable_set_reset (mask : Z)
| vga_mode (mode : Z)
| vga_data_rotate (op : Z)
| vga_map_mask (mask : Z)
| vga_set_reset (set : Z)
| vga_bit_mask (mask : Z)
| fb_store (address : Z) (value : Z)
| ioctl_FBIOPUTCMAP (fd : Z) (cmap : fb_cmap).

(** ** Functional updates of the head and of the backend *)

Definition with_palette (h : ply_renderer_head_t)
    (r g b : list Z) (n : Z) : ply_renderer_head_t :=
  {| pixel_buffer := pixel_buffer h; area := area h;
     map_address := map_address h; size := size h;
     red := r; green := g; blue := b; palette_size := n |}.

Definition with_pixel_buffer (h : ply_renderer_head_t)
    (p : ply_pixel_buffer_t) : ply_renderer_head_t :=
  {| pixel_buffer := p; area := area h;
     map_address := map_address h; size := size h;
     red := red h; green := green h; blue := blue h;
     palette_size := palette_size h |}.

Definition with_head (b : ply_renderer_backend_t)
    (h : ply_renderer_head_t) : ply_renderer_backend_t :=
  {| device_fd := device_fd b; head := h;
     row_stride := row_stride b; is_active := is_active b |}.

Definition with_is_active (b : ply_renderer_backend_t)
    (a : bool) : ply_renderer_backend_t :=
  {| device_fd := device_fd b; head := head b;
     row_stride := row_stride b; is_active := a |}.

(** ** Head initialisation *)

(** [initialize_head]: the pixel buffer is the one the collaborator returns
    from [ply_pixel_buffer_new] after [ply_pixel_buffer_fill_with_color]; the
    three channel arrays are zeroed and the palette is empty. *)
Definition initialize_head (fresh : ply_pixel_buffer_t)
    (h : ply_renderer_head_t) : ply_renderer_head_t :=
  with_palette (with_pixel_buffer h fresh)
    (repeat 0 16) (repeat 0 16) (repeat 0 16) 0.

(** ** Palette upload *)

Definition set_palette (backend : ply_renderer_backend_t)
    (h : ply_renderer_head_t) : list event :=
  if device_fd backend <? 0 then []
  else if palette_size h =? 0 then []
  else [ioctl_FBIOPUTCMAP (device_fd backend)
          {| cmap_start := 0; cmap_len := palette_size h;
             cmap_red := red h; cmap_green := green h;
             cmap_blue := blue h |}].

(** ** The classifier *)

(** The condition of the [if] in the inner loop, for one slot. *)
Definition slot_matches (h : ply_renderer_head_t)
    (r g b shift index : Z) : bool :=
  (Z.shiftr (array_get (red h) index) (8 + shift) =? Z.shiftr r shift)
  && (Z.shiftr (array_get (green h) index) (8 + shift) =? Z.shiftr g shift)
  && (Z.shiftr (array_get (blue h) index) (8 + shift) =? Z.shiftr b shift).

(** [for (index = ...; index < head->palette_size; index++) if (...) return
    index;] with [count] iterations left. *)
Fixpoint scan_palette (h : ply_renderer_head_t) (r g b shift : Z)
    (count : nat) (index : Z) : option Z :=
  match count with
  | O => None
  | S count' =>
      if slot_matches h r g b shift index then Some index
      else scan_palette h r g b shift count' (index + 1)
  end.

(** The body of [if (head->palette_size < 16)]. *)
Definition allocate_slot (backend : ply_renderer_backend_t)
    (h : ply_renderer_head_t) (r g b : Z)
    : Z * ply_renderer_head_t * list event :=
  let index := palette_size h in
  let h' := with_palette h
              (array_set (red h) index (u16 (Z.shiftl r 8)))
              (array_set (green h) index (u16 (Z.shiftl g 8)))
              (array_set (blue h) index (u16 (Z.shiftl b 8)))
              (u32 (palette_size h + 1)) in
  (index, h', set_palette backend h').

(** [for (shift = ...; shift < 8; shift++)] with [count] iterations left,
    followed by the final [return head->palette_size - 1]. *)
Fixpoint shift_loop (backend : ply_renderer_backend_t)
    (h : ply_renderer_head_t) (r g b : Z) (count : nat) (shift : Z)
    : Z * ply_renderer_head_t * list event :=
  match count with
  | O => (u32 (palette_size h - 1), h, [])
  | S count' =>
      match scan_palette h r g b shift (Z.to_nat (palette_size h)) 0 with
      | Some index => (index, h, [])
      | None =>
          if palette_size h <? 16 then allocate_slot backend h r g b
          else shift_loop backend h r g b count' (shift + 1)
      end
  end.

(** The callers always pass [&backend->head] as [head]; the function reads
    only [device_fd] from [backend], so the head is threaded separately. *)
Definition argb32_pixel_value_to_color_index
    (backend : ply_renderer_backend_t) (h : ply_renderer_head_t)
    (pixel_value : Z) : Z * ply_renderer_head_t * list event :=
  let r := Z.land (Z.shiftr pixel_value 16) 255 in
  let g := Z.land (Z.shiftr pixel_value 8) 255 in
  let b := Z.land pixel_value 255 in
  shift_loop backend h r g b 2%nat 6.

(** ** Loops and byte-addressed memory *)

(** The values a C loop [for (i = lo; i < hi; i++)] gives to [i]. *)
Definition zrange (lo hi : Z) : list Z :=
  map (fun k => lo + Z.of_nat k) (seq 0 (Z.to_nat (hi - lo))).

(** Memory reachable from a pointer, addressed by the offset from it. *)
Definition memory := Z -> Z.

Definition mem_store (m : memory) (i v : Z) : memory :=
  fun j => if j =? i then v else m j.

(** [memset (m, 0, n)]. *)
Definition memset_zero (m : memory) (n : Z) : memory :=
  fun j => if (0 <=? j) && (j <? n) then 0 else m j.

(** ** The flush engine *)

Section Engine.

(** The bytes found at the address [malloc] returns for the mask buffer; the
    code zeroes the first [row_stride * 16] of them before every row. *)
Variable malloc_contents : memory.

(** The byte the device answers when the mapped memory is read at an address;
    [*p |= 1] reads it before it stores. *)
Variable device_read : Z -> Z.

(** The first two statements of the body of [for (x = x1; x < x2; x++)] in
    [flush_area]: fetch the pixel at [(x, y)] from the shadow buffer and
    classify it.  [head] is [&backend->head], so the backend carries the
    palette the call leaves behind. *)
Definition classify_pixel (backend : ply_renderer_backend_t) (y x : Z)
    : Z * ply_renderer_backend_t * list event :=
  let shadow_buffer :=
    ply_pixel_buffer_get_argb32_data (pixel_buffer (head backend)) in
  let pixel :=
    shadow_buffer (u64 (x + u64 (y * rect_width (area (head backend))))) in
  let '(index, h', issued) :=
    argb32_pixel_value_to_color_index backend (head backend) pixel in
  (index, with_head backend h', issued).

(** The offset of the mask byte of plane [index] that holds pixel [x]. *)
Definition mask_offset (stride index x : Z) : Z :=
  u64 (u32 (index * stride) + x / 8).

(** The whole body of that loop: classify, then
    [mask[index * row_stride + x / 8] |= (0x80 >> (x % 8))]. *)
Definition mark_pixel (y : Z)
    (st : ply_renderer_backend_t * memory * list event) (x : Z)
    : ply_renderer_backend_t * memory * list event :=
  let '(backend, mask, events) := st in
  let '(index, backend', issued) := classify_pixel backend y x in
  let i := mask_offset (row_stride backend) index x in
  (backend',
   mem_store mask i (u8 (Z.lor (mask i) (Z.shiftr 128 (x mod 8)))),
   events ++ issued).

(** The body of [for (b = x1 / 8; b < x2 / 8 + 1; b++)] for plane [c]. *)
Definition write_byte (backend : ply_renderer_backend_t) (mask : memory)
    (y c : Z) (events : list event) (b : Z) : list event :=
  let m := mask (u32 (c * row_stride backend + b)) in
  if m =? 0 then events
  else
    let p := map_address (head backend)
             + u64 (y * row_stride backend) + b in
    events ++ [vga_set_reset c; vga_bit_mask m;
               fb_store p (u8 (Z.lor (device_read p) 1))].

(** The body of [for (c = 0; c < 16; c++)].  [b] is an [unsigned int]
    compared with an [unsigned long] bound: the range below is what the loop
    visits as long as [x2 / 8 + 1] fits 32 bits.  The last offset visited is
    [x2 / 8] itself. *)
Definition write_plane (backend : ply_renderer_backend_t) (mask : memory)
    (y x1 x2 : Z) (events : list event) (c : Z) : list event :=
  fold_left (write_byte backend mask y c)
            (zrange (u32 (x1 / 8)) (x2 / 8 + 1)) events.

(** The body of [for (y = y1; y < y2; y++)]. *)
Definition flush_row (x1 x2 : Z)
    (st : ply_renderer_backend_t * memory * list event) (y : Z)
    : ply_renderer_backend_t * memory * list event :=
  let '(backend, mask, events) := st in
  let zeroed := memset_zero mask (u32 (row_stride backend * 16)) in
  let '(backend', marked, events') :=
    fold_left (mark_pixel y) (zrange x1 x2) (backend, zeroed, events) in
  (backend', marked,
   fold_left (write_plane backend' marked y x1 x2) (zrange 0 16) events').

(** [head] is [&backend->head] at the only call site, so the backend carries
    it. *)
Definition flush_area (backend : ply_renderer_backend_t)
    (area_to_flush : ply_rectangle_t)
    : ply_renderer_backend_t * list event :=
  let x1 := u64 (rect_x area_to_flush) in
  let y1 := u64 (rect_y area_to_flush) in
  let x2 := u64 (x1 + rect_width area_to_flush) in
  let y2 := u64 (y1 + rect_height area_to_flush) in
  let '(backend', _, events) :=
    fold_left (flush_row x1 x2) (zrange y1 y2)
              (backend, malloc_contents, []) in
  (backend', events).

(** The [while (node != NULL)] loop of [flush_head]. *)
Definition flush_areas (backend : ply_renderer_backend_t)
    (areas_to_flush : list ply_rectangle_t) (events : list event)
    : ply_renderer_backend_t * list event :=
  fold_left
    (fun (st : ply_renderer_backend_t * list event) area_to_flush =>
       let '(backend', issued) := flush_area (fst st) area_to_flush in
       (backend', snd st ++ issued))
    areas_to_flush (backend, events).

(** The writes that open every active flush. *)
Definition reset_sequence : list event :=
  [ply_terminal_set_mode PLY_TERMINAL_MODE_GRAPHICS;
   ply_terminal_set_unbuffered_input;
   vga_enable_set_reset 15; vga_mode 0; vga_data_rotate 0;
   vga_map_mask 255].

(** [flush_head]; the source asserts [&backend->head == head]. *)
Definition flush_head (backend : ply_renderer_backend_t)
    : ply_renderer_backend_t * list event :=
  if negb (is_active backend) then (backend, [])
  else
    let events := reset_sequence ++ set_palette backend (head backend) in
    let updated_region :=
      ply_pixel_buffer_get_updated_areas (pixel_buffer (head backend)) in
    let areas_to_flush :=
      ply_region_get_sorted_rectangle_list updated_region in
    let '(backend', events') := flush_areas backend areas_to_flush events in
    let buffer := pixel_buffer (head backend') in
    (with_head backend'
       (with_pixel_buffer (head backend')
          {| argb32_data := argb32_data buffer;
             updated_areas := ply_region_clear (updated_areas buffer) |}),
     events').

Definition ply_renderer_head_redraw (backend : ply_renderer_backend_t)
    : ply_renderer_backend_t * list event :=
  let buffer := pixel_buffer (head backend) in
  let region := ply_pixel_buffer_get_updated_areas buffer in
  flush_head
    (with_head backend
       (with_pixel_buffer (head backend)
          {| argb32_data := argb32_data buffer;
             updated_areas :=
               ply_region_add_rectangle region (area (head backend)) |})).

Definition activate (backend : ply_renderer_backend_t)
    : ply_renderer_backend_t * list event :=
  let backend' := with_is_active backend true in
  if map_address (head backend') =? MAP_FAILED then (backend', [])
  else ply_renderer_head_redraw backend'.

Definition deactivate (backend : ply_renderer_backend_t)
    : ply_renderer_backend_t * list event :=
  (with_is_active backend false, []).

(** [terminal_is_active] is the answer of [ply_terminal_is_active]. *)
Definition on_active_vt_changed (terminal_is_active : bool)
    (backend : ply_renderer_backend_t)
    : ply_renderer_backend_t * list event :=
  if terminal_is_active then activate backend else deactivate backend.

(** ** Vocabulary of the statements *)

(** All three channels of slot [index] compare equal to the input at
    precision level [k]: the stored 16-bit value shifted right by [8 + k]
    against the 8-bit input channel shifted right by [k]. *)
Definition channels_equal (h : ply_renderer_head_t)
    (r g b k index : Z) : Prop :=
  Z.shiftr (array_get (red h) index) (8 + k) = Z.shiftr r k
  /\ Z.shiftr (array_get (green h) index) (8 + k) = Z.shiftr g k
  /\ Z.shiftr (array_get (blue h) index) (8 + k) = Z.shiftr b k.

(** [index] is the first existing slot that matches at level [k]. *)
Definition first_match (h : ply_renderer_head_t)
    (r g b k index : Z) : Prop :=
  0 <= index < palette_size h
  /\ channels_equal h r g b k index
  /\ forall j, 0 <= j < index -> ~ channels_equal h r g b k j.

(** No existing slot matches at level [k]. *)
Definition no_match (h : ply_renderer_head_t) (r g b k : Z) : Prop :=
  forall j, 0 <= j < palette_size h -> ~ channels_equal h r g b k j.

Definition red_of (pixel_value : Z) : Z := Z.land (Z.shiftr pixel_value 16) 255.
Definition green_of (pixel_value : Z) : Z := Z.land (Z.shiftr pixel_value 8) 255.
Definition blue_of (pixel_value : Z) : Z := Z.land pixel_value 255.

(** The head after classifying a sequence of pixels, one call each. *)
Definition classify_all (backend : ply_renderer_backend_t)
    (h : ply_renderer_head_t) (pixels : list Z) : ply_renderer_head_t :=
  fold_left
    (fun h' p => snd (fst (argb32_pixel_value_to_color_index backend h' p)))
    pixels h.

(** The heads a session can reach: a freshly initialised head, and whatever a
    classification call leaves behind. *)
Inductive reachable_head : ply_renderer_head_t -> Prop :=
| reachable_fresh fresh h : reachable_head (initialize_head fresh h)
| reachable_classified backend h pixel_value :
    reachable_head h ->
    reachable_head
      (snd (fst (argb32_pixel_value_to_color_index backend h pixel_value))).

(** The pixels of a row in the order the code classifies them, each with the
    slot it was classified to; the palette grows along the way. *)
Fixpoint row_slots (backend : ply_renderer_backend_t) (y : Z)
    (xs : list Z) : list (Z * Z) :=
  match xs with
  | [] => []
  | x :: rest =>
      let '(index, backend', _) := classify_pixel backend y x in
      (x, index) :: row_slots backend' y rest
  end.

(** The mask a row ends up with, from the mask it starts with and the slots
    its pixels were classified to. *)
Definition mark_all (stride : Z) (mask : memory) (slots : list (Z * Z))
    : memory :=
  fold_left
    (fun m (s : Z * Z) =>
       let i := mask_offset stride (snd s) (fst s) in
       mem_store m i (u8 (Z.lor (m i) (Z.shiftr 128 (fst s mod 8)))))
    slots mask.

(** Everything of the backend but the palette. *)
Definition same_device (b b' : ply_renderer_backend_t) : Prop :=
  device_fd b' = device_fd b /\ row_stride b' = row_stride b
  /\ is_active b' = is_active b
  /\ pixel_buffer (head b') = pixel_buffer (head b)
  /\ area (head b') = area (head b)
  /\ map_address (head b') = map_address (head b)
  /\ size (head b') = size (head b).

(** [block] occurs in [trace] as a run of consecutive events. *)
Definition occurs (block trace : list event) : Prop :=
  exists before after, trace = before ++ block ++ after.

(** Register writes that select a plane or a bit mask, and stores into the
    device memory. *)
Definition is_plane_write (e : event) : bool :=
  match e with
  | vga_set_reset _ | vga_bit_mask _ | fb_store _ _ => true
  | _ => false
  end.

Definition is_upload (e : event) : bool :=
  match e with
  | ioctl_FBIOPUTCMAP _ _ => true
  | _ => false
  end.

(** A trace made of colour-map uploads only. *)
Definition uploads_only (trace : list event) : Prop :=
  Forall (fun e => is_upload e = true) trace.

(** What the flush issues for plane [c] and byte offset [b] of row [y]:
    nothing when the mask byte is zero; otherwise the plane select, the bit
    mask and one store that ORs 1 into the device byte at row offset plus
    byte offset. *)
Definition pair_writes (backend : ply_renderer_backend_t) (mask : memory)
    (y c b : Z) : list event :=
  let m := mask (c * row_stride backend + b) in
  let p := map_address (head backend) + y * row_stride backend + b in
  if m =? 0 then []
  else [vga_set_reset c; vga_bit_mask m;
        fb_store p (u8 (Z.lor (device_read p) 1))].

(** The writes of a row: every plane in turn and, within a plane, every byte
    offset of the range [x1 / 8 .. x2 / 8]. *)
Definition row_writes (backend : ply_renderer_backend_t) (mask : memory)
    (y x1 x2 : Z) : list event :=
  flat_map
    (fun c => flat_map (pair_writes backend mask y c)
                       (zrange (x1 / 8) (x2 / 8 + 1)))
    (zrange 0 16).

(** A rectangle that lies inside the row stride, and whose coordinates and
    byte offsets do not wrap around in the integer types of [flush_area]. *)
Definition rectangle_fits (stride : Z) (r : ply_rectangle_t) : Prop :=
  0 <= stride /\ stride * 16 < 2 ^ 32
  /\ 0 <= rect_x r /\ 0 <= rect_y r
  /\ 0 <= rect_width r /\ 0 <= rect_height r
  /\ rect_x r + rect_width r <= 8 * stride
  /\ rect_y r + rect_height r < 2 ^ 64
  /\ (rect_y r + rect_height r) * stride < 2 ^ 64.

(** The shape of what a flush issues after its opening sequence: colour-map
    uploads, and plane writes that always come as a plane select, a nonzero
    bit mask and a nonzero store, in this order. *)
Inductive plane_protocol : list event -> Prop :=
| protocol_done : plane_protocol []
| protocol_upload fd cmap rest :
    plane_protocol rest ->
    plane_protocol (ioctl_FBIOPUTCMAP fd cmap :: rest)
| protocol_write c m p v rest :
    0 <= c < 16 -> m <> 0 -> v <> 0 ->
    plane_protocol rest ->
    plane_protocol
      (vga_set_reset c :: vga_bit_mask m :: fb_store p v :: rest).

(** The pixels of a rectangle. *)
Definition inside (r : ply_rectangle_t) (x y : Z) : Prop :=
  rect_x r <= x < rect_x r + rect_width r
  /\ rect_y r <= y < rect_y r + rect_height r.

(** ** Sample inputs *)

(** Sixteen colours, no two in the same bucket at level 6: red is one of
    0, 64, 128, 192, green one of 0, 64 and blue one of 0, 128. *)
Definition sample_colors : list Z :=
  flat_map
    (fun r => flat_map
       (fun g => map (fun b => Z.shiftl r 16 + Z.shiftl g 8 + b) [0; 128])
       [0; 64])
    [0; 64; 128; 192].

(** A shadow buffer of one row that holds the sample colours. *)
Definition sample_buffer (damage : ply_region_t) : ply_pixel_buffer_t :=
  {| argb32_data := array_get sample_colors; updated_areas := damage |}.

(** A head of 16 by 1 pixels, mapped at address 4096, right after
    [initialize_head]. *)
Definition sample_head (damage : ply_region_t) : ply_renderer_head_t :=
  initialize_head (sample_buffer damage)
    {| pixel_buffer := sample_buffer [];
       area := mk_rectangle 0 0 16 1;
       map_address := 4096; size := 2;
       red := []; green := []; blue := []; palette_size := 0 |}.

(** An open device with a row stride of two bytes. *)
Definition sample_backend (active : bool) (damage : ply_region_t)
    : ply_renderer_backend_t :=
  {| device_fd := 3; head := sample_head damage;
     row_stride := 2; is_active := active |}.

(** The sample head once the sixteen sample colours have been classified:
    its palette is full. *)
Definition full_head : ply_renderer_head_t :=
  classify_all (sample_backend true []) (sample_head []) sample_colors.

(** The same backend before the device memory is mapped. *)
Definition unmapped_backend (damage : ply_region_t)
    : ply_renderer_backend_t :=
  with_head (sample_backend false damage)
    {| pixel_buffer := sample_buffer damage;
       area := mk_rectangle 0 0 16 1;
       map_address := MAP_FAILED; size := 2;
       red := repeat 0 16; green := repeat 0 16; blue := repeat 0 16;
       palette_size := 0 |}.

(** ** Vocabulary of the further properties *)

(** The palette of a head as the code keeps it: three arrays of 16 entries,
    at most 16 slots in use, a slot in use holding an 8-bit channel shifted
    left by 8, a slot not in use holding 0. *)
Definition channel_value (in_use : bool) (v : Z) : Prop :=
  if in_use then 0 <= v < 2 ^ 16 /\ v mod 2 ^ 8 = 0 else v = 0.

Definition well_formed_palette (h : ply_renderer_head_t) : Prop :=
  length (red h) = 16%nat /\ length (green h) = 16%nat
  /\ length (blue h) = 16%nat
  /\ 0 <= palette_size h <= 16
  /\ forall j, 0 <= j < 16 ->
       channel_value (j <? palette_size h) (array_get (red h) j)
       /\ channel_value (j <? palette_size h) (array_get (green h) j)
       /\ channel_value (j <? palette_size h) (array_get (blue h) j).

(** Two slots hold colours that agree in the top two bits of every
    channel. *)
Definition same_bucket (h : ply_renderer_head_t) (i j : Z) : Prop :=
  Z.shiftr (array_get (red h) i) 14 = Z.shiftr (array_get (red h) j) 14
  /\ Z.shiftr (array_get (green h) i) 14 = Z.shiftr (array_get (green h) j) 14
  /\ Z.shiftr (array_get (blue h) i) 14 = Z.shiftr (array_get (blue h) j) 14.

(** The three channels of a slot. *)
Definition slot_color (h : ply_renderer_head_t) (j : Z) : Z * Z * Z :=
  (array_get (red h) j, array_get (green h) j, array_get (blue h) j).

(** The colour map that describes the whole palette of a head. *)
Definition cmap_of (h : ply_renderer_head_t) : fb_cmap :=
  {| cmap_start := 0; cmap_len := palette_size h;
     cmap_red := red h; cmap_green := green h; cmap_blue := blue h |}.

(** The colour map of the last upload of a trace, if there is one. *)
Definition last_upload (trace : list event) : option fb_cmap :=
  fold_left
    (fun found e =>
       match e with
       | ioctl_FBIOPUTCMAP _ cmap => Some cmap
       | _ => found
       end)
    trace None.

(** What a flush does between its opening sequence and the clearing of the
    damaged region, one step at a time: it classifies a pixel, which may
    grow the palette and upload it, or it writes one nonzero mask byte of a
    plane. *)
Inductive flush_steps :
    ply_renderer_backend_t -> list event -> ply_renderer_backend_t -> Prop :=
| steps_done b : flush_steps b [] b
| steps_classify b y x i b1 issued rest b' :
    classify_pixel b y x = (i, b1, issued) ->
    flush_steps b1 rest b' ->
    flush_steps b (issued ++ rest) b'
| steps_write b c m p v rest b' :
    0 <= c < 16 -> m <> 0 -> v <> 0 ->
    flush_steps b rest b' ->
    flush_steps b
      (vga_set_reset c :: vga_bit_mask m :: fb_store p v :: rest) b'.

(** The last colour map uploaded is the palette of the head, unless the
    palette is empty and nothing was uploaded. *)
Definition in_sync (h : ply_renderer_head_t) (trace : list event) : Prop :=
  (palette_size h = 0 /\ last_upload trace = None)
  \/ last_upload trace = Some (cmap_of h).

(** The pixel [flush_area] reads for position [(x, y)]. *)
Definition pixel_at (backend : ply_renderer_backend_t) (x y : Z) : Z :=
  ply_pixel_buffer_get_argb32_data (pixel_buffer (head backend))
    (u64 (x + u64 (y * rect_width (area (head backend))))).

(** The slot a colour is classified to on the palette of a backend. *)
Definition slot_of (backend : ply_renderer_backend_t) (pixel_value : Z) : Z :=
  fst (fst (argb32_pixel_value_to_color_index
              backend (head backend) pixel_value)).

(** The pixels [xs] of row [y], each with the slot
    [argb32_pixel_value_to_color_index] gives to the pixel the shadow buffer
    holds at that position; the pixels are classified in the order of [xs],
    each on the palette [h] the pixels before it left. *)
Fixpoint pixel_slots (backend : ply_renderer_backend_t)
    (h : ply_renderer_head_t) (y : Z) (xs : list Z) : list (Z * Z) :=
  match xs with
  | [] => []
  | x :: rest =>
      let result :=
        argb32_pixel_value_to_color_index backend h (pixel_at backend x y) in
      (x, fst (fst result)) :: pixel_slots backend (snd (fst result)) y rest
  end.

(** ** Device lifecycle *)

(** The fields of [struct fb_var_screeninfo] and [struct fb_fix_screeninfo]
    the code reads. *)
Record fb_var_screeninfo := mk_var_screeninfo {
  xres : Z;
  yres : Z;
  xoffset : Z;
  yoffset : Z;
  bits_per_pixel : Z
}.

Record fb_fix_screeninfo := mk_fix_screeninfo {
  fb_type : Z;
  type_aux : Z;
  visual : Z;
  line_length : Z
}.

(** The three constants of [linux/fb.h] the format check compares with;
    their values are not part of the sources. *)
Variable FB_TYPE_VGA_PLANES : Z.
Variable FB_AUX_VGA_PLANES_VGA4 : Z.
Variable FB_VISUAL_PSEUDOCOLOR : Z.

(** What the lifecycle functions do to the outside world: the events of the
    flush engine, and the system and terminal calls of mapping and
    unmapping. *)
Inductive device_event :=
| engine (e : event)
| sys_ioperm
| sys_mmap (length fd : Z)
| sys_munmap (address length : Z)
| ply_terminal_activate_vt.

Definition with_geometry (h : ply_renderer_head_t)
    (a : ply_rectangle_t) (s : Z) : ply_renderer_head_t :=
  {| pixel_buffer := pixel_buffer h; area := a;
     map_address := map_address h; size := s;
     red := red h; green := green h; blue := blue h;
     palette_size := palette_size h |}.

Definition with_map_address (h : ply_renderer_head_t)
    (address : Z) : ply_renderer_head_t :=
  {| pixel_buffer := pixel_buffer h; area := area h;
     map_address := address; size := size h;
     red := red h; green := green h; blue := blue h;
     palette_size := palette_size h |}.

Definition with_row_stride (b : ply_renderer_backend_t)
    (stride : Z) : ply_renderer_backend_t :=
  {| device_fd := device_fd b; head := head b;
     row_stride := stride; is_active := is_active b |}.

(** [query_device].  The two arguments of option type are what the two
    [ioctl] calls read, [None] when the call fails; [fresh] is the pixel
    buffer [initialize_head] gets from the collaborator.  [None] as a result
    is a failed [assert]. *)
Definition query_device
    (variable_screen_info : option fb_var_screeninfo)
    (fixed_screen_info : option fb_fix_screeninfo)
    (fresh : ply_pixel_buffer_t) (backend : ply_renderer_backend_t)
    : option (bool * ply_renderer_backend_t) :=
  if device_fd backend <? 0 then None
  else
    match variable_screen_info with
    | None => Some (false, backend)
    | Some v =>
        match fixed_screen_info with
        | None => Some (false, backend)
        | Some f =>
            if negb (fb_type f =? FB_TYPE_VGA_PLANES)
               || negb (type_aux f =? FB_AUX_VGA_PLANES_VGA4)
               || negb (visual f =? FB_VISUAL_PSEUDOCOLOR)
               || negb (bits_per_pixel v =? 4)
            then Some (false, backend)
            else
              let a := mk_rectangle (xoffset v) (yoffset v)
                                    (xres v) (yres v) in
              let stride := line_length f in
              let s := u64 (rect_height a * stride) in
              Some (true,
                    with_row_stride
                      (with_head backend
                         (initialize_head fresh
                            (with_geometry (head backend) a s)))
                      stride)
        end
    end.

(** [map_to_device].  [ioperm_result] and [mmap_result] are what the two
    system calls return, [terminal_is_active] the answer of
    [ply_terminal_is_active]. *)
Definition map_to_device (ioperm_result mmap_result : Z)
    (terminal_is_active : bool) (backend : ply_renderer_backend_t)
    : option (bool * ply_renderer_backend_t * list device_event) :=
  if device_fd backend <? 0 then None
  else if size (head backend) <=? 0 then None
  else if ioperm_result <? 0 then Some (false, backend, [sys_ioperm])
  else
    let mapping :=
      [sys_ioperm; sys_mmap (size (head backend)) (device_fd backend)] in
    let mapped :=
      with_head backend (with_map_address (head backend) mmap_result) in
    if mmap_result =? MAP_FAILED then Some (false, mapped, mapping)
    else if terminal_is_active then
      let '(backend', issued) := activate mapped in
      Some (true, backend', mapping ++ map engine issued)
    else Some (true, mapped, mapping ++ [ply_terminal_activate_vt]).

(** [unmap_from_device]. *)
Definition unmap_from_device (backend : ply_renderer_backend_t)
    : ply_renderer_backend_t * list device_event :=
  if map_address (head backend) =? MAP_FAILED then (backend, [])
  else
    (with_head backend (with_map_address (head backend) MAP_FAILED),
     [sys_munmap (map_address (head backend)) (size (head backend))]).

(** The events of the flush engine among the events of the lifecycle. *)
Definition engine_events (trace : list device_event) : list event :=
  flat_map (fun e => match e with engine e' => [e'] | _ => [] end) trace.

(** The head area is painted by a trace: every pixel gets its plane
    selected, a bit mask with its bit set and a store into the device byte
    that holds it. *)
Definition paints_head_area (backend : ply_renderer_backend_t)
    (trace : list event) : Prop :=
  forall x y, inside (area (head backend)) x y ->
    exists c m v,
      0 <= c < 16 /\ Z.testbit m (7 - x mod 8) = true
      /\ occurs [vga_set_reset c; vga_bit_mask m;
                 fb_store (map_address (head backend)
                           + y * row_stride backend + x / 8) v] trace.

(** ** Further sample inputs *)

(** A shadow buffer whose pixels all have the colour 0x008000. *)
Definition green_buffer (damage : ply_region_t) : ply_pixel_buffer_t :=
  {| argb32_data := fun _ => 32768; updated_areas := damage |}.

(** The active sample device with its palette full, showing a row of
    sixteen pixels of the colour 0x008000, which no slot of the palette
    matches at level 6 or 7. *)
Definition green_backend (damage : ply_region_t) : ply_renderer_backend_t :=
  {| device_fd := 3;
     head := with_pixel_buffer full_head (green_buffer damage);
     row_stride := 2; is_active := true |}.

(** The sample head after one pixel of the colour 0x008000 has been
    classified: one slot is in use. *)
Definition one_slot_head : ply_renderer_head_t :=
  snd (fst (argb32_pixel_value_to_color_index
              (sample_backend true []) (sample_head []) 32768)).

(** What the two queries of [query_device] read on the sample device:
    16 by 1 pixels at offset (0, 0), 4 bits per pixel, two bytes per row,
    with 4, 0 and 3 for the planar VGA type, the 4-plane layout and the
    pseudo-colour visual. *)
Definition sample_var_info : fb_var_screeninfo :=
  {| xres := 16; yres := 1; xoffset := 0; yoffset := 0;
     bits_per_pixel := 4 |}.

Definition sample_fix_info : fb_fix_screeninfo :=
  {| fb_type := 4; type_aux := 0; visual := 3; line_length := 2 |}.

(** ** The classifier: proofs *)

Lemma triple_eq {A B C : Type} (a a' : A) (b b' : B) (c c' : C) :
  (a, b, c) = (a', b', c') -> a = a' /\ b = b' /\ c = c'.
Proof. intros H. inversion H. repeat split. Qed.

Lemma in_zrange lo hi x : In x (zrange lo hi) <-> lo <= x < hi.
Proof.
  unfold zrange. rewrite in_map_iff. split.
  - intros (k & <- & Hk). apply in_seq in Hk. lia.
  - intros Hx. exists (Z.to_nat (x - lo)). split; [lia|].
    apply in_seq. lia.
Qed.

Lemma slot_matches_iff h r g b k i :
  slot_matches h r g b k i = true <-> channels_equal h r g b k i.
Proof.
  unfold slot_matches, channels_equal.
  rewrite !andb_true_iff, !Z.eqb_eq.
  split; [intros ((H1 & H2) & H3) | intros (H1 & H2 & H3)]; auto.
Qed.

Lemma slot_matches_false_iff h r g b k i :
  slot_matches h r g b k i = false <-> ~ channels_equal h r g b k i.
Proof.
  rewrite <- slot_matches_iff. destruct (slot_matches h r g b k i); split;
    congruence.
Qed.

Lemma scan_palette_some h r g b k count : forall start i,
  scan_palette h r g b k count start = Some i <->
  (start <= i < start + Z.of_nat count
   /\ channels_equal h r g b k i
   /\ forall j, start <= j < i -> ~ channels_equal h r g b k j).
Proof.
  induction count as [|count IH]; intros start i; cbn [scan_palette].
  - split; [discriminate | lia].
  - destruct (slot_matches h r g b k start) eqn:E.
    + apply slot_matches_iff in E. split.
      * intros [= <-]. repeat split; try lia; try apply E.
      * intros (Hr & Hi & Hlow). f_equal.
        destruct (Z.eq_dec start i) as [|Hne]; [assumption|].
        exfalso. apply (Hlow start); [lia | exact E].
    + apply slot_matches_false_iff in E. rewrite IH. split.
      * intros (Hr & Hi & Hlow). repeat split; try lia; try apply Hi.
        intros j Hj. destruct (Z.eq_dec j start) as [->|Hne];
          [exact E | apply Hlow; lia].
      * intros (Hr & Hi & Hlow).
        assert (start <> i) by (intros ->; exact (E Hi)).
        repeat split; try lia; try apply Hi.
        intros j Hj. apply Hlow. lia.
Qed.

Lemma scan_palette_none h r g b k count : forall start,
  scan_palette h r g b k count start = None <->
  (forall j, start <= j < start + Z.of_nat count ->
             ~ channels_equal h r g b k j).
Proof.
  induction count as [|count IH]; intros start; cbn [scan_palette].
  - split; [intros _ j Hj; lia | reflexivity].
  - destruct (slot_matches h r g b k start) eqn:E.
    + apply slot_matches_iff in E. split; [discriminate|].
      intros Hall. exfalso. apply (Hall start); [lia | exact E].
    + apply slot_matches_false_iff in E. rewrite IH. split.
      * intros Hall j Hj. destruct (Z.eq_dec j start) as [->|Hne];
          [exact E | apply Hall; lia].
      * intros Hall j Hj. apply Hall. lia.
Qed.

Lemma scan_first_match h r g b k i :
  first_match h r g b k i ->
  scan_palette h r g b k (Z.to_nat (palette_size h)) 0 = Some i.
Proof.
  intros (Hr & Hi & Hlow). apply scan_palette_some.
  repeat split; try lia; try apply Hi. exact Hlow.
Qed.

Lemma scan_no_match h r g b k :
  no_match h r g b k ->
  scan_palette h r g b k (Z.to_nat (palette_size h)) 0 = None.
Proof.
  intros Hno. apply scan_palette_none. intros j Hj. apply Hno. lia.
Qed.

Lemma scan_palette_bound h r g b k i :
  scan_palette h r g b k (Z.to_nat (palette_size h)) 0 = Some i ->
  0 <= i < palette_size h.
Proof.
  intros H. apply scan_palette_some in H. lia.
Qed.

(** What one call does to the slot count, for a palette of at most 16
    slots. *)
Lemma classify_step backend h pixel_value :
  0 <= palette_size h <= 16 ->
  forall i h' issued,
  argb32_pixel_value_to_color_index backend h pixel_value = (i, h', issued) ->
  0 <= i < palette_size h' /\ palette_size h' <= 16
  /\ ((h' = h /\ issued = [] /\ 0 < palette_size h)
      \/ (palette_size h < 16 /\ palette_size h' = palette_size h + 1
          /\ i = palette_size h
          /\ no_match h (red_of pixel_value) (green_of pixel_value)
                      (blue_of pixel_value) 6
          /\ (i, h', issued)
             = allocate_slot backend h (red_of pixel_value)
                 (green_of pixel_value) (blue_of pixel_value))).
Proof.
  intros Hsize i h' issued.
  unfold argb32_pixel_value_to_color_index. cbn [shift_loop].
  fold (red_of pixel_value) (green_of pixel_value) (blue_of pixel_value).
  destruct (scan_palette h _ _ _ 6 _ 0) as [i6|] eqn:E6.
  - intros [= <- <- <-]. apply scan_palette_bound in E6.
    repeat split; try lia. left. repeat split; lia.
  - destruct (palette_size h <? 16) eqn:Efull.
    + apply Z.ltb_lt in Efull. unfold allocate_slot.
      intros Heq. apply triple_eq in Heq as (<- & <- & <-). cbn [with_palette palette_size].
      unfold u32. rewrite Z.mod_small by lia.
      repeat split; try lia. right. repeat split; try lia.
      intros j Hj. apply (proj1 (scan_palette_none _ _ _ _ _ _ _) E6). lia.
    + apply Z.ltb_ge in Efull.
      destruct (scan_palette h _ _ _ (6 + 1) _ 0) as [i7|] eqn:E7.
      * intros [= <- <- <-]. apply scan_palette_bound in E7.
        repeat split; try lia. left. repeat split; lia.
      * intros [= <- <- <-]. unfold u32. rewrite Z.mod_small by lia.
        repeat split; try lia. left. repeat split; lia.
Qed.

Lemma initialize_head_palette_size fresh h :
  palette_size (initialize_head fresh h) = 0.
Proof. reflexivity. Qed.

Lemma classify_all_palette_size backend pixels : forall h,
  0 <= palette_size h <= 16 ->
  0 <= palette_size (classify_all backend h pixels) <= 16.
Proof.
  unfold classify_all.
  induction pixels as [|p pixels IH]; intros h Hh; cbn [fold_left];
    [exact Hh|].
  apply IH.
  destruct (argb32_pixel_value_to_color_index backend h p)
    as [[i h'] issued] eqn:E.
  apply classify_step in E; [cbn [fst snd]; lia | exact Hh].
Qed.

Lemma reachable_head_palette_size h :
  reachable_head h -> 0 <= palette_size h <= 16.
Proof.
  induction 1 as [fresh h | backend h p Hreach IH].
  - rewrite initialize_head_palette_size. lia.
  - destruct (argb32_pixel_value_to_color_index backend h p)
      as [[i h'] issued] eqn:E.
    apply classify_step in E; [cbn [fst snd]; lia | exact IH].
Qed.

(** ** Checking matches on a concrete palette *)

Lemma no_match_check h r g b k :
  forallb (fun j => negb (slot_matches h r g b k j))
          (zrange 0 (palette_size h)) = true ->
  no_match h r g b k.
Proof.
  intros Hall j Hj. rewrite forallb_forall in Hall.
  apply slot_matches_false_iff, negb_true_iff, Hall, in_zrange. lia.
Qed.

Lemma first_match_check h r g b k i :
  (0 <=? i) && (i <? palette_size h) && slot_matches h r g b k i
  && forallb (fun j => negb (slot_matches h r g b k j)) (zrange 0 i) = true ->
  first_match h r g b k i.
Proof.
  rewrite !andb_true_iff, Z.leb_le, Z.ltb_lt, forallb_forall.
  intros (((Hlo & Hhi) & Hi) & Hall). split; [lia|].
  split; [apply slot_matches_iff, Hi|].
  intros j Hj. apply slot_matches_false_iff, negb_true_iff, Hall, in_zrange.
  lia.
Qed.

Lemma classify_all_reachable backend pixels : forall h,
  reachable_head h -> reachable_head (classify_all backend h pixels).
Proof.
  unfold classify_all.
  induction pixels as [|p pixels IH]; intros h Hh; cbn [fold_left];
    [exact Hh|].
  apply IH. constructor. exact Hh.
Qed.

(** C1.  At level 6, and at level 7 once level 6 found nothing and the palette
    is full, the classifier returns the first slot, in increasing index
    order, whose three stored channels shifted right by [8 + k] equal the
    input channels shifted right by [k]; the palette is left as it was. *)
Theorem classifier_returns_first_match backend h pixel_value index :
  let r := Z.land (Z.shiftr pixel_value 16) 255 in
  let g := Z.land (Z.shiftr pixel_value 8) 255 in
  let b := Z.land pixel_value 255 in
  first_match h r g b 6 index
  \/ (no_match h r g b 6 /\ 16 <= palette_size h
      /\ first_match h r g b 7 index) ->
  argb32_pixel_value_to_color_index backend h pixel_value = (index, h, []).
Proof.
  intros r g b Hcase.
  unfold argb32_pixel_value_to_color_index. cbn [shift_loop].
  fold r g b.
  destruct Hcase as [H6 | (Hno & Hfull & H7)].
  - rewrite (scan_first_match _ _ _ _ _ _ H6). reflexivity.
  - rewrite (scan_no_match _ _ _ _ _ Hno).
    apply Z.ltb_ge in Hfull. rewrite Hfull.
    change (6 + 1) with 7.
    rewrite (scan_first_match _ _ _ _ _ _ H7). reflexivity.
Qed.

(** C2.  Along any sequence of classification calls that starts from a
    freshly initialised head, the slot count stays between 0 and 16 and never
    decreases; a call either leaves the head untouched or, when fewer than 16
    slots are in use, allocates exactly one slot and returns it. *)
Theorem palette_size_bounded_monotone backend fresh h0 pixels pixel_value :
  let h := classify_all backend (initialize_head fresh h0) pixels in
  let result := argb32_pixel_value_to_color_index backend h pixel_value in
  let h' := snd (fst result) in
  0 <= palette_size h /\ palette_size h <= palette_size h'
  /\ palette_size h' <= 16
  /\ (h' = h
      \/ (palette_size h < 16 /\ palette_size h' = palette_size h + 1
          /\ fst (fst result) = palette_size h
          /\ result = allocate_slot backend h (red_of pixel_value)
                        (green_of pixel_value) (blue_of pixel_value))).
Proof.
  intros h result h'.
  assert (Hh : 0 <= palette_size h <= 16).
  { apply classify_all_palette_size.
    rewrite initialize_head_palette_size. lia. }
  subst h' result.
  destruct (argb32_pixel_value_to_color_index backend h pixel_value)
    as [[i h'] issued] eqn:E.
  apply classify_step in E; [|exact Hh]. cbn [fst snd].
  destruct E as (Hi & Hle & [(-> & _ & _) | (Hlt & Hinc & Hidx & _ & Ha)]).
  - split; [lia|]. split; [lia|]. split; [lia|]. left. reflexivity.
  - split; [lia|]. split; [lia|]. split; [lia|]. right.
    split; [lia|]. split; [lia|]. split; [lia|]. exact Ha.
Qed.

(** C3.  With 16 slots in use and no slot matching at level 6 nor at level 7,
    the classifier returns 15, the last slot, issues nothing and leaves the
    head, its arrays and its slot count unchanged. *)
Theorem full_palette_falls_back_to_last_slot backend h pixel_value :
  let r := Z.land (Z.shiftr pixel_value 16) 255 in
  let g := Z.land (Z.shiftr pixel_value 8) 255 in
  let b := Z.land pixel_value 255 in
  palette_size h = 16 ->
  no_match h r g b 6 ->
  no_match h r g b 7 ->
  argb32_pixel_value_to_color_index backend h pixel_value
  = (palette_size h - 1, h, [])
  /\ palette_size h - 1 = 15.
Proof.
  intros r g b Hsize H6 H7.
  unfold argb32_pixel_value_to_color_index. cbn [shift_loop].
  fold r g b.
  rewrite (scan_no_match _ _ _ _ _ H6).
  change (6 + 1) with 7.
  rewrite (scan_no_match _ _ _ _ _ H7).
  rewrite Hsize. split; reflexivity.
Qed.

(** C10.  On every reachable head the returned index is a slot in use when
    the call returns, hence at most 15; on an empty palette the call
    allocates and returns slot 0; and for a byte offset [x / 8] inside the
    row stride the mask index [index * row_stride + x / 8] lies inside the
    16 planes of the buffer. *)
Theorem returned_index_is_valid_slot backend h pixel_value :
  reachable_head h ->
  let result := argb32_pixel_value_to_color_index backend h pixel_value in
  let index := fst (fst result) in
  let h' := snd (fst result) in
  0 <= index < palette_size h' /\ palette_size h' <= 16 /\ index <= 15
  /\ (palette_size h = 0 -> index = 0 /\ palette_size h' = 1)
  /\ (forall stride x, 0 <= stride -> stride * 16 < 2 ^ 32 ->
        0 <= x -> x / 8 < stride ->
        0 <= u64 (u32 (index * stride) + x / 8) < u32 (stride * 16)).
Proof.
  intros Hreach result index h'. subst index h' result.
  apply reachable_head_palette_size in Hreach.
  destruct (argb32_pixel_value_to_color_index backend h pixel_value)
    as [[i h'] issued] eqn:E.
  apply classify_step in E; [|exact Hreach]. cbn [fst snd].
  destruct E as (Hi & Hle & Hcases).
  split; [lia|]. split; [lia|]. split; [lia|]. split.
  - intros Hzero. destruct Hcases as [(_ & _ & Hpos) | (_ & Hinc & Hidx & _)];
      lia.
  - unfold u64, u32. intros stride x Hs Hfit Hx Hb.
    assert (0 <= x / 8) by (apply Z.div_pos; lia).
    rewrite (Z.mod_small (i * stride)) by nia.
    rewrite (Z.mod_small (stride * 16)) by lia.
    rewrite Z.mod_small by nia. nia.
Qed.

(** ** Lists, ranges and traces *)

Lemma occurs_refl block : occurs block block.
Proof. exists [], []. rewrite app_nil_r. reflexivity. Qed.

Lemma occurs_app_l block trace before :
  occurs block trace -> occurs block (before ++ trace).
Proof.
  intros (pre & post & ->). exists (before ++ pre), post.
  rewrite <- app_assoc. reflexivity.
Qed.

Lemma occurs_app_r block trace after :
  occurs block trace -> occurs block (trace ++ after).
Proof.
  intros (pre & post & ->). exists pre, (post ++ after).
  rewrite <- !app_assoc. reflexivity.
Qed.

Lemma occurs_flat_map {A : Type} (f : A -> list event) (l : list A) a :
  In a l -> occurs (f a) (flat_map f l).
Proof.
  intros Hin. apply in_split in Hin as (l1 & l2 & ->).
  rewrite flat_map_app. cbn [flat_map].
  exists (flat_map f l1), (flat_map f l2). reflexivity.
Qed.

Lemma occurs_trans a b c : occurs a b -> occurs b c -> occurs a c.
Proof.
  intros Hab (pre & post & ->). apply occurs_app_l, occurs_app_r, Hab.
Qed.

Lemma plane_protocol_app t1 t2 :
  plane_protocol t1 -> plane_protocol t2 -> plane_protocol (t1 ++ t2).
Proof.
  intros H1 H2. induction H1; cbn [app]; try assumption;
    constructor; auto.
Qed.

Lemma plane_protocol_flat_map {A : Type} (f : A -> list event) (l : list A) :
  (forall a, In a l -> plane_protocol (f a)) ->
  plane_protocol (flat_map f l).
Proof.
  induction l as [|a l IH]; intros Hall; cbn [flat_map].
  - constructor.
  - apply plane_protocol_app.
    + apply Hall. left. reflexivity.
    + apply IH. intros a' Hin. apply Hall. right. exact Hin.
Qed.

(** ** Bits of a mask byte *)

Lemma pixel_bit_spec k i :
  0 <= k < 8 -> 0 <= i ->
  Z.testbit (Z.shiftr 128 k) i = (i =? 7 - k).
Proof.
  intros Hk Hi. rewrite Z.shiftr_spec by lia.
  change 128 with (2 ^ 7). rewrite Z.pow2_bits_eqb by lia.
  destruct (Z.eqb_spec 7 (i + k)), (Z.eqb_spec i (7 - k)); try reflexivity;
    lia.
Qed.


Lemma u8_testbit z k : 0 <= k < 8 -> Z.testbit (u8 z) k = Z.testbit z k.
Proof. intros Hk. unfold u8. apply Z.mod_pow2_bits_low. lia. Qed.

Lemma or_one_nonzero z : u8 (Z.lor z 1) <> 0.
Proof.
  intros Hzero.
  assert (Hbit : Z.testbit (u8 (Z.lor z 1)) 0 = true).
  { rewrite u8_testbit by lia. rewrite Z.lor_spec.
    apply orb_true_iff. right. reflexivity. }
  rewrite Hzero in Hbit. discriminate.
Qed.

Lemma testbit_true_nonzero z k : Z.testbit z k = true -> z <> 0.
Proof. intros Hbit ->. rewrite Z.bits_0 in Hbit. discriminate. Qed.

Lemma mod8_range x : 0 <= x mod 8 < 8.
Proof. apply Z.mod_pos_bound. lia. Qed.

(** ** Marking the pixels of a row *)

Lemma set_palette_uploads backend h : uploads_only (set_palette backend h).
Proof.
  unfold set_palette, uploads_only.
  destruct (device_fd backend <? 0); [constructor|].
  destruct (palette_size h =? 0); repeat constructor.
Qed.

Lemma uploads_only_protocol trace : uploads_only trace -> plane_protocol trace.
Proof.
  induction 1 as [|e trace He _ IH]; [constructor|].
  destruct e; try discriminate. constructor. exact IH.
Qed.

Lemma uploads_only_app t1 t2 :
  uploads_only t1 -> uploads_only t2 -> uploads_only (t1 ++ t2).
Proof. intros H1 H2. apply Forall_app. split; assumption. Qed.

Lemma classify_frame backend h pixel_value i h' issued :
  argb32_pixel_value_to_color_index backend h pixel_value = (i, h', issued) ->
  pixel_buffer h' = pixel_buffer h /\ area h' = area h
  /\ map_address h' = map_address h /\ size h' = size h
  /\ uploads_only issued.
Proof.
  unfold argb32_pixel_value_to_color_index. cbn [shift_loop].
  destruct (scan_palette h _ _ _ 6 _ 0).
  - intros [= <- <- <-]. repeat split. constructor.
  - destruct (palette_size h <? 16).
    + unfold allocate_slot. intros Heq.
      apply triple_eq in Heq as (<- & <- & <-). repeat split.
      apply set_palette_uploads.
    + destruct (scan_palette h _ _ _ (6 + 1) _ 0);
        intros [= <- <- <-]; repeat split; constructor.
Qed.

Lemma same_device_refl b : same_device b b.
Proof. repeat split. Qed.

Lemma same_device_trans a b c :
  same_device a b -> same_device b c -> same_device a c.
Proof.
  unfold same_device. intros (? & ? & ? & ? & ? & ? & ?)
    (? & ? & ? & ? & ? & ? & ?).
  repeat split; congruence.
Qed.

Lemma classify_pixel_spec backend y x i backend' issued :
  classify_pixel backend y x = (i, backend', issued) ->
  same_device backend backend' /\ uploads_only issued
  /\ (0 <= palette_size (head backend) <= 16 ->
      0 <= i < 16 /\ 0 <= palette_size (head backend') <= 16).
Proof.
  unfold classify_pixel.
  destruct (argb32_pixel_value_to_color_index backend (head backend) _)
    as [[i0 h'] issued0] eqn:E.
  intros [= <- <- <-].
  pose proof (classify_frame _ _ _ _ _ _ E) as (Hb & Ha & Hm & Hs & Hp).
  split; [|split].
  - unfold same_device. cbn [with_head device_fd row_stride is_active head].
    rewrite Hb. repeat split; assumption.
  - exact Hp.
  - intros Hsize. apply classify_step in E; [|exact Hsize].
    cbn [with_head head]. lia.
Qed.

(** The three components of the state after the pixel loop of a row. *)
Lemma mark_pixels_spec y xs : forall backend mask events backend' marked events',
  fold_left (mark_pixel y) xs (backend, mask, events)
  = (backend', marked, events') ->
  same_device backend backend'
  /\ (0 <= palette_size (head backend) <= 16 ->
      0 <= palette_size (head backend') <= 16)
  /\ (exists issued, events' = events ++ issued /\ uploads_only issued)
  /\ marked = mark_all (row_stride backend) mask (row_slots backend y xs).
Proof.
  induction xs as [|x xs IH]; intros backend mask events backend' marked events';
    cbn [fold_left row_slots].
  - intros [= <- <- <-]. split; [apply same_device_refl|].
    split; [auto|]. split; [|reflexivity].
    exists []. rewrite app_nil_r. split; [reflexivity | constructor].
  - unfold mark_pixel at 2.
    destruct (classify_pixel backend y x) as [[i b1] issued1] eqn:E.
    intros Hfold. apply IH in Hfold as (Hdev & Hsize & (issued & -> & Hp) & ->).
    apply classify_pixel_spec in E as (Hdev1 & Hp1 & Hsize1).
    split; [exact (same_device_trans _ _ _ Hdev1 Hdev)|].
    split; [intros H; apply Hsize, Hsize1, H|].
    split.
    + exists (issued1 ++ issued). rewrite app_assoc. split; [reflexivity|].
      apply uploads_only_app; assumption.
    + destruct Hdev1 as (_ & -> & _). reflexivity.
Qed.

Lemma row_slots_positions y xs : forall backend,
  map fst (row_slots backend y xs) = xs.
Proof.
  induction xs as [|x xs IH]; intros backend; cbn [row_slots];
    [reflexivity|].
  destruct (classify_pixel backend y x) as [[i b1] issued1].
  cbn [map fst]. rewrite IH. reflexivity.
Qed.

Lemma row_slots_valid y xs : forall backend x c,
  0 <= palette_size (head backend) <= 16 ->
  In (x, c) (row_slots backend y xs) -> 0 <= c < 16.
Proof.
  induction xs as [|x0 xs IH]; intros backend x c Hsize; cbn [row_slots];
    [intros []|].
  destruct (classify_pixel backend y x0) as [[i b1] issued1] eqn:E.
  apply classify_pixel_spec in E as (_ & _ & Hvalid).
  specialize (Hvalid Hsize). intros [[= <- <-] | Hin]; [lia|].
  apply (IH b1 x c); [lia | exact Hin].
Qed.

Lemma row_slots_complete y xs backend x :
  In x xs -> exists c, In (x, c) (row_slots backend y xs).
Proof.
  intros Hin. rewrite <- (row_slots_positions y xs backend) in Hin.
  apply in_map_iff in Hin as ([x' c] & Hfst & Hin). cbn in Hfst. subst x'.
  exists c. exact Hin.
Qed.

Lemma row_slots_sound y xs backend x c :
  In (x, c) (row_slots backend y xs) -> In x xs.
Proof.
  intros Hin. rewrite <- (row_slots_positions y xs backend).
  apply in_map_iff. exists (x, c). split; [reflexivity | exact Hin].
Qed.

(** ** The mask a row ends up with *)

Lemma mark_all_untouched stride slots : forall mask i,
  (forall x c, In (x, c) slots -> mask_offset stride c x <> i) ->
  mark_all stride mask slots i = mask i.
Proof.
  unfold mark_all.
  induction slots as [|[x c] slots IH]; intros mask i Hno; cbn [fold_left];
    [reflexivity|].
  rewrite IH by (intros x' c' Hin; apply Hno; right; exact Hin).
  cbn [fst snd]. unfold mem_store.
  destruct (Z.eqb_spec i (mask_offset stride c x)) as [->|]; [|reflexivity].
  exfalso. apply (Hno x c); [left|]; reflexivity.
Qed.

Lemma mark_all_bit stride slots : forall mask i k,
  0 <= k < 8 ->
  Z.testbit (mark_all stride mask slots i) k = true <->
  (Z.testbit (mask i) k = true
   \/ exists x c, In (x, c) slots /\ mask_offset stride c x = i
                  /\ k = 7 - x mod 8).
Proof.
  unfold mark_all.
  induction slots as [|[x c] slots IH]; intros mask i k Hk; cbn [fold_left].
  - split; [auto | intros [H | (x & c & [] & _)]; exact H].
  - rewrite IH by exact Hk. cbn [fst snd]. unfold mem_store.
    pose proof (mod8_range x) as Hmod.
    destruct (Z.eqb_spec i (mask_offset stride c x)) as [->|Hne].
    + rewrite u8_testbit, Z.lor_spec, pixel_bit_spec by lia.
      rewrite orb_true_iff, Z.eqb_eq. split.
      * intros [[H | H] | (x' & c' & Hin & Hoff & Hbit)].
        -- left. exact H.
        -- right. exists x, c. repeat split; [left; reflexivity | exact H].
        -- right. exists x', c'. repeat split; auto. right. exact Hin.
      * intros [H | (x' & c' & [[= <- <-] | Hin] & Hoff & Hbit)].
        -- left. left. exact H.
        -- left. right. exact Hbit.
        -- right. exists x', c'. repeat split; auto.
    + split.
      * intros [H | (x' & c' & Hin & Hoff & Hbit)]; [left; exact H|].
        right. exists x', c'. repeat split; auto. right. exact Hin.
      * intros [H | (x' & c' & [[= <- <-] | Hin] & Hoff & Hbit)].
        -- left. exact H.
        -- exfalso. apply Hne. symmetry. exact Hoff.
        -- right. exists x', c'. repeat split; auto.
Qed.


(** ** Writing the planes of a row *)

Lemma fold_left_emit {A : Type} (f : list event -> A -> list event)
    (g : A -> list event) (l : list A) :
  (forall events a, f events a = events ++ g a) ->
  forall events, fold_left f l events = events ++ flat_map g l.
Proof.
  intros Hf. induction l as [|a l IH]; intros events;
    cbn [fold_left flat_map].
  - rewrite app_nil_r. reflexivity.
  - rewrite IH, Hf, app_assoc. reflexivity.
Qed.

Lemma write_byte_emit backend mask y c events b :
  write_byte backend mask y c events b
  = events ++ write_byte backend mask y c [] b.
Proof.
  unfold write_byte.
  destruct (mask (u32 (c * row_stride backend + b)) =? 0);
    [rewrite app_nil_r|]; reflexivity.
Qed.

Lemma write_plane_emit backend mask y x1 x2 events c :
  write_plane backend mask y x1 x2 events c
  = events ++ flat_map (write_byte backend mask y c [])
                       (zrange (u32 (x1 / 8)) (x2 / 8 + 1)).
Proof.
  unfold write_plane. apply fold_left_emit. intros. apply write_byte_emit.
Qed.

Lemma write_planes_emit backend mask y x1 x2 events cs :
  fold_left (write_plane backend mask y x1 x2) cs events
  = events ++ flat_map
      (fun c => flat_map (write_byte backend mask y c [])
                         (zrange (u32 (x1 / 8)) (x2 / 8 + 1))) cs.
Proof.
  apply fold_left_emit. intros. apply write_plane_emit.
Qed.

Lemma write_byte_protocol backend mask y c b :
  0 <= c < 16 -> plane_protocol (write_byte backend mask y c [] b).
Proof.
  intros Hc. unfold write_byte.
  destruct (Z.eqb_spec (mask (u32 (c * row_stride backend + b))) 0);
    [constructor|].
  cbn [app]. constructor; try assumption; [apply or_one_nonzero|constructor].
Qed.

(** Where nothing wraps around, the loop body issues what [pair_writes]
    says. *)
Lemma write_byte_pair_writes backend mask y c b :
  0 <= row_stride backend -> 0 <= y -> y * row_stride backend < 2 ^ 64 ->
  0 <= c * row_stride backend + b < 2 ^ 32 ->
  write_byte backend mask y c [] b = pair_writes backend mask y c b.
Proof.
  intros Hs Hy Hrow Hoff. unfold write_byte, pair_writes, u32, u64.
  rewrite (Z.mod_small (c * row_stride backend + b)) by exact Hoff.
  rewrite (Z.mod_small (y * row_stride backend)) by nia. reflexivity.
Qed.

Lemma flat_map_agree {A : Type} (f g : A -> list event) (l : list A) :
  (forall a, In a l -> f a = g a) -> flat_map f l = flat_map g l.
Proof.
  induction l as [|a l IH]; intros Heq; cbn [flat_map]; [reflexivity|].
  rewrite Heq by (left; reflexivity).
  rewrite IH by (intros a' Hin; apply Heq; right; exact Hin).
  reflexivity.
Qed.

(** Where nothing wraps around, the two write loops of a row issue
    [row_writes]. *)
Lemma write_loops_row_writes backend mask y x1 x2 :
  0 <= row_stride backend -> 0 <= x1 <= x2 ->
  0 <= y -> y * row_stride backend < 2 ^ 64 ->
  15 * row_stride backend + x2 / 8 < 2 ^ 32 ->
  flat_map
    (fun c => flat_map (write_byte backend mask y c [])
                       (zrange (u32 (x1 / 8)) (x2 / 8 + 1)))
    (zrange 0 16)
  = row_writes backend mask y x1 x2.
Proof.
  intros Hs Hx Hy Hrow Hfit. unfold row_writes.
  assert (0 <= x1 / 8 <= x2 / 8).
  { split; [apply Z.div_pos; lia | apply Z.div_le_mono; lia]. }
  unfold u32. rewrite (Z.mod_small (x1 / 8)) by nia.
  apply flat_map_agree. intros c Hc. apply in_zrange in Hc.
  apply flat_map_agree. intros b Hb. apply in_zrange in Hb.
  apply write_byte_pair_writes; try assumption. nia.
Qed.

Lemma flush_row_spec x1 x2 y backend mask events backend' marked events' :
  flush_row x1 x2 (backend, mask, events) y = (backend', marked, events') ->
  same_device backend backend'
  /\ (0 <= palette_size (head backend) <= 16 ->
      0 <= palette_size (head backend') <= 16)
  /\ marked = mark_all (row_stride backend)
                (memset_zero mask (u32 (row_stride backend * 16)))
                (row_slots backend y (zrange x1 x2))
  /\ exists uploads,
       uploads_only uploads
       /\ events' = events ++ uploads ++
           flat_map
             (fun c => flat_map (write_byte backend' marked y c [])
                                (zrange (u32 (x1 / 8)) (x2 / 8 + 1)))
             (zrange 0 16).
Proof.
  unfold flush_row.
  destruct (fold_left (mark_pixel y) (zrange x1 x2) _)
    as [[b1 m1] e1] eqn:E.
  rewrite write_planes_emit. intros [= <- <- <-].
  apply mark_pixels_spec in E as (Hdev & Hsize & (uploads & -> & Hup) & ->).
  split; [exact Hdev|]. split; [exact Hsize|]. split; [reflexivity|].
  exists uploads. split; [exact Hup|].
  rewrite <- app_assoc. reflexivity.
Qed.

Lemma flush_row_protocol x1 x2 y backend mask events backend' marked events' :
  flush_row x1 x2 (backend, mask, events) y = (backend', marked, events') ->
  exists issued, events' = events ++ issued /\ plane_protocol issued.
Proof.
  intros H. apply flush_row_spec in H as (_ & _ & _ & uploads & Hup & ->).
  eexists. split; [reflexivity|].
  apply plane_protocol_app; [apply uploads_only_protocol, Hup|].
  apply plane_protocol_flat_map. intros c Hc. apply in_zrange in Hc.
  apply plane_protocol_flat_map. intros b _. apply write_byte_protocol, Hc.
Qed.

Lemma mask_offset_small stride c x :
  0 <= stride -> 0 <= c < 16 -> 0 <= x ->
  15 * stride + x / 8 < 2 ^ 32 ->
  mask_offset stride c x = c * stride + x / 8.
Proof.
  intros Hs Hc Hx Hfit. unfold mask_offset, u64, u32.
  assert (0 <= x / 8) by (apply Z.div_pos; lia).
  rewrite (Z.mod_small (c * stride)) by nia.
  apply Z.mod_small. nia.
Qed.

(** Every pixel of a flushed row gets its plane selected, a bit mask with
    its bit set and a store into the device byte that holds it. *)
Lemma flush_row_covers x1 x2 y backend mask events backend' marked events' x :
  flush_row x1 x2 (backend, mask, events) y = (backend', marked, events') ->
  0 <= palette_size (head backend) <= 16 ->
  0 <= row_stride backend -> 0 <= x1 <= x2 ->
  0 <= y -> y * row_stride backend < 2 ^ 64 ->
  15 * row_stride backend + x2 / 8 < 2 ^ 32 ->
  x1 <= x < x2 ->
  exists c m v,
    0 <= c < 16 /\ Z.testbit m (7 - x mod 8) = true
    /\ occurs [vga_set_reset c; vga_bit_mask m;
               fb_store (map_address (head backend)
                         + y * row_stride backend + x / 8) v] events'.
Proof.
  intros Hrow Hsize Hs Hx12 Hy Hyrow Hfit Hx.
  apply flush_row_spec in Hrow
    as (Hdev & _ & Hmarked & uploads & _ & ->).
  destruct Hdev as (_ & Hstride & _ & _ & _ & Hmap & _).
  rewrite write_loops_row_writes by (rewrite ?Hstride; assumption).
  assert (Hin : In x (zrange x1 x2)) by (apply in_zrange; exact Hx).
  destruct (row_slots_complete y _ backend x Hin) as (c & Hslot).
  pose proof (row_slots_valid y _ backend x c Hsize Hslot) as Hc.
  assert (Hdiv : x1 / 8 <= x / 8 <= x2 / 8).
  { split; apply Z.div_le_mono; lia. }
  assert (Hoff : mask_offset (row_stride backend) c x
                 = c * row_stride backend + x / 8).
  { apply mask_offset_small; try lia. }
  pose proof (mod8_range x) as Hmod.
  assert (Hbit : Z.testbit (marked (c * row_stride backend + x / 8))
                           (7 - x mod 8) = true).
  { rewrite Hmarked. apply mark_all_bit; [lia|].
    right. exists x, c. repeat split; assumption. }
  exists c, (marked (c * row_stride backend + x / 8)).
  eexists. split; [exact Hc|]. split; [exact Hbit|].
  apply occurs_app_l, occurs_app_l.
  unfold row_writes.
  eapply occurs_trans;
    [|apply (occurs_flat_map
               (fun c => flat_map (pair_writes backend' marked y c)
                                  (zrange (x1 / 8) (x2 / 8 + 1)))
               (zrange 0 16) c); apply in_zrange; lia].
  cbv beta.
  eapply occurs_trans;
    [|apply (occurs_flat_map (pair_writes backend' marked y c)
               (zrange (x1 / 8) (x2 / 8 + 1)) (x / 8));
      apply in_zrange; lia].
  unfold pair_writes. rewrite Hstride, Hmap.
  destruct (Z.eqb_spec (marked (c * row_stride backend + x / 8)) 0)
    as [Hzero|_].
  - exfalso. exact (testbit_true_nonzero _ _ Hbit Hzero).
  - apply occurs_refl.
Qed.

(** ** Flushing a rectangle *)

Lemma flush_rows_spec x1 x2 rows :
  forall backend mask events backend' mask' events',
  fold_left (flush_row x1 x2) rows (backend, mask, events)
  = (backend', mask', events') ->
  same_device backend backend'
  /\ (0 <= palette_size (head backend) <= 16 ->
      0 <= palette_size (head backend') <= 16)
  /\ exists issued, events' = events ++ issued /\ plane_protocol issued.
Proof.
  induction rows as [|y rows IH];
    intros backend mask events backend' mask' events'; cbn [fold_left].
  - intros [= <- <- <-]. split; [apply same_device_refl|]. split; [auto|].
    exists []. rewrite app_nil_r. split; [reflexivity | constructor].
  - destruct (flush_row x1 x2 (backend, mask, events) y)
      as [[b1 m1] e1] eqn:E.
    intros Hfold. apply IH in Hfold as (Hdev & Hsize & issued & -> & Hp).
    pose proof (flush_row_protocol _ _ _ _ _ _ _ _ _ E) as (issued1 & -> & Hp1).
    apply flush_row_spec in E as (Hdev1 & Hsize1 & _).
    split; [exact (same_device_trans _ _ _ Hdev1 Hdev)|].
    split; [intros H; apply Hsize, Hsize1, H|].
    exists (issued1 ++ issued). rewrite app_assoc. split; [reflexivity|].
    apply plane_protocol_app; assumption.
Qed.

Lemma flush_rows_covers x1 x2 rows backend mask events backend' mask' events'
    x y :
  fold_left (flush_row x1 x2) rows (backend, mask, events)
  = (backend', mask', events') ->
  0 <= palette_size (head backend) <= 16 ->
  0 <= row_stride backend -> 0 <= x1 <= x2 ->
  0 <= y -> y * row_stride backend < 2 ^ 64 ->
  15 * row_stride backend + x2 / 8 < 2 ^ 32 ->
  x1 <= x < x2 -> In y rows ->
  exists c m v,
    0 <= c < 16 /\ Z.testbit m (7 - x mod 8) = true
    /\ occurs [vga_set_reset c; vga_bit_mask m;
               fb_store (map_address (head backend)
                         + y * row_stride backend + x / 8) v] events'.
Proof.
  intros Hfold Hsize Hs Hx12 Hy Hyrow Hfit Hx Hin.
  apply in_split in Hin as (before & after & ->).
  rewrite fold_left_app in Hfold. cbn [fold_left] in Hfold.
  destruct (fold_left (flush_row x1 x2) before (backend, mask, events))
    as [[b1 m1] e1] eqn:E1.
  destruct (flush_row x1 x2 (b1, m1, e1) y) as [[b2 m2] e2] eqn:E2.
  apply flush_rows_spec in E1 as (Hdev1 & Hsize1 & _).
  apply flush_rows_spec in Hfold as (_ & _ & issued & -> & _).
  destruct Hdev1 as (_ & Hstride & _ & _ & _ & Hmap & _).
  eapply flush_row_covers in E2 as (c & m & v & Hc & Hbit & Hocc);
    rewrite ?Hstride; eauto.
  exists c, m, v. split; [exact Hc|]. split; [exact Hbit|].
  apply occurs_app_r. rewrite <- Hstride, <- Hmap. exact Hocc.
Qed.

Lemma flush_area_spec backend r backend' issued :
  flush_area backend r = (backend', issued) ->
  same_device backend backend'
  /\ (0 <= palette_size (head backend) <= 16 ->
      0 <= palette_size (head backend') <= 16)
  /\ plane_protocol issued.
Proof.
  unfold flush_area.
  destruct (fold_left _ _ _) as [[b1 m1] e1] eqn:E.
  intros [= <- <-].
  apply flush_rows_spec in E as (Hdev & Hsize & issued & -> & Hp).
  split; [exact Hdev|]. split; [exact Hsize|]. exact Hp.
Qed.

Lemma flush_area_covers backend r backend' issued x y :
  flush_area backend r = (backend', issued) ->
  0 <= palette_size (head backend) <= 16 ->
  rectangle_fits (row_stride backend) r ->
  inside r x y ->
  exists c m v,
    0 <= c < 16 /\ Z.testbit m (7 - x mod 8) = true
    /\ occurs [vga_set_reset c; vga_bit_mask m;
               fb_store (map_address (head backend)
                         + y * row_stride backend + x / 8) v] issued.
Proof.
  unfold flush_area, rectangle_fits, inside.
  intros Harea Hsize
    (Hs & Hfit & Hx0 & Hy0 & Hw & Hh & Hedge & Hy2 & Hrows) (Hx & Hy).
  destruct (fold_left _ _ _) as [[b1 m1] e1] eqn:E.
  injection Harea as <- <-.
  assert (Hdiv : 0 <= (rect_x r + rect_width r) / 8 <= row_stride backend).
  { split; [apply Z.div_pos; lia|].
    apply Z.div_le_upper_bound; lia. }
  unfold u64 in E.
  rewrite (Z.mod_small (rect_x r)) in E by lia.
  rewrite (Z.mod_small (rect_y r)) in E by lia.
  rewrite (Z.mod_small (rect_x r + rect_width r)) in E by lia.
  rewrite (Z.mod_small (rect_y r + rect_height r)) in E by lia.
  apply (flush_rows_covers _ _ _ _ _ _ _ _ _ x y E);
    [ exact Hsize | lia | lia | lia | nia | lia | lia | apply in_zrange; lia ].
Qed.

(** ** Flushing the damaged region *)

Lemma flush_areas_nil backend events :
  flush_areas backend [] events = (backend, events).
Proof. reflexivity. Qed.

Lemma flush_areas_cons backend r areas events :
  flush_areas backend (r :: areas) events
  = flush_areas (fst (flush_area backend r)) areas
                (events ++ snd (flush_area backend r)).
Proof.
  unfold flush_areas. cbn [fold_left fst snd].
  destruct (flush_area backend r) as [b1 issued1]. reflexivity.
Qed.

Lemma flush_areas_app backend areas1 areas2 events :
  flush_areas backend (areas1 ++ areas2) events
  = flush_areas (fst (flush_areas backend areas1 events)) areas2
                (snd (flush_areas backend areas1 events)).
Proof.
  unfold flush_areas. rewrite fold_left_app.
  destruct (fold_left _ areas1 _) as [b1 e1]. reflexivity.
Qed.

Lemma flush_areas_spec areas : forall backend events backend' events',
  flush_areas backend areas events = (backend', events') ->
  same_device backend backend'
  /\ (0 <= palette_size (head backend) <= 16 ->
      0 <= palette_size (head backend') <= 16)
  /\ exists issued, events' = events ++ issued /\ plane_protocol issued.
Proof.
  induction areas as [|r areas IH]; intros backend events backend' events'.
  - rewrite flush_areas_nil. intros [= <- <-].
    split; [apply same_device_refl|]. split; [auto|].
    exists []. rewrite app_nil_r. split; [reflexivity | constructor].
  - rewrite flush_areas_cons.
    destruct (flush_area backend r) as [b1 issued1] eqn:E. cbn [fst snd].
    intros Hrest. apply IH in Hrest as (Hdev & Hsize & issued & -> & Hp).
    apply flush_area_spec in E as (Hdev1 & Hsize1 & Hp1).
    split; [exact (same_device_trans _ _ _ Hdev1 Hdev)|].
    split; [intros H; apply Hsize, Hsize1, H|].
    exists (issued1 ++ issued). rewrite app_assoc. split; [reflexivity|].
    apply plane_protocol_app; assumption.
Qed.

(** What the loop issues does not depend on what was issued before it. *)
Lemma flush_areas_emit areas : forall backend events,
  flush_areas backend areas events
  = (fst (flush_areas backend areas []),
     events ++ snd (flush_areas backend areas [])).
Proof.
  induction areas as [|r areas IH]; intros backend events.
  - rewrite !flush_areas_nil. cbn [fst snd]. rewrite app_nil_r. reflexivity.
  - rewrite !flush_areas_cons.
    rewrite IH. rewrite (IH _ ([] ++ _)). cbn [fst snd app].
    rewrite app_assoc. reflexivity.
Qed.

Lemma flush_areas_covers areas backend events backend' events' r x y :
  flush_areas backend areas events = (backend', events') ->
  0 <= palette_size (head backend) <= 16 ->
  In r areas ->
  rectangle_fits (row_stride backend) r ->
  inside r x y ->
  exists c m v,
    0 <= c < 16 /\ Z.testbit m (7 - x mod 8) = true
    /\ occurs [vga_set_reset c; vga_bit_mask m;
               fb_store (map_address (head backend)
                         + y * row_stride backend + x / 8) v] events'.
Proof.
  intros Hflush Hsize Hin Hfits Hinside.
  apply in_split in Hin as (before & after & ->).
  rewrite flush_areas_app, flush_areas_cons in Hflush.
  destruct (flush_areas backend before events) as [b1 e1] eqn:E1.
  cbn [fst snd] in Hflush.
  destruct (flush_area b1 r) as [b2 issued2] eqn:E2.
  cbn [fst snd] in Hflush.
  apply flush_areas_spec in E1 as (Hdev1 & Hsize1 & _).
  apply flush_areas_spec in Hflush as (_ & _ & issued & -> & _).
  destruct Hdev1 as (_ & Hstride & _ & _ & _ & Hmap & _).
  eapply flush_area_covers in E2 as (c & m & v & Hc & Hbit & Hocc);
    rewrite ?Hstride; eauto.
  exists c, m, v. split; [exact Hc|]. split; [exact Hbit|].
  apply occurs_app_r, occurs_app_l.
  rewrite <- Hstride, <- Hmap. exact Hocc.
Qed.

(** The damaged region emptied, everything else as it is. *)
Lemma flush_head_active backend :
  is_active backend = true ->
  flush_head backend
  = (let b1 := fst (flush_areas backend
                      (updated_areas (pixel_buffer (head backend))) []) in
     with_head b1
       (with_pixel_buffer (head b1)
          {| argb32_data := argb32_data (pixel_buffer (head b1));
             updated_areas := [] |}),
     reset_sequence ++ set_palette backend (head backend)
       ++ snd (flush_areas backend
                 (updated_areas (pixel_buffer (head backend))) [])).
Proof.
  intros Hactive. unfold flush_head. rewrite Hactive. cbn [negb].
  unfold ply_pixel_buffer_get_updated_areas,
    ply_region_get_sorted_rectangle_list, ply_region_clear.
  rewrite flush_areas_emit. rewrite <- app_assoc. reflexivity.
Qed.









(** ** The claims about the flush engine *)


(** X17.  The write loops of a row read the mask as one linear buffer: for
    every plane [c] of 0 .. 15 and, within it, every byte offset [b] of
    [x1 / 8 .. x2 / 8] in turn, the cell [mask[c * row_stride + b]] decides.
    When it is zero nothing is issued; otherwise the plane select for [c],
    the bit mask with that cell and one store of a nonzero byte at row
    offset plus [b] are issued, in this order.  What an active flush issues
    after its opening sequence is made of such triples and of colour-map
    uploads only. *)
Theorem write_loops_read_linear_mask backend mask events y x1 x2 :
  is_active backend = true ->
  0 <= row_stride backend -> 0 <= x1 <= x2 ->
  0 <= y -> y * row_stride backend < 2 ^ 64 ->
  15 * row_stride backend + x2 / 8 < 2 ^ 32 ->
  let stride := row_stride backend in
  let result := flush_row x1 x2 (backend, mask, events) y in
  let backend' := fst (fst result) in
  let marked := snd (fst result) in
  (exists uploads,
     uploads_only uploads
     /\ snd result = events ++ uploads
                     ++ row_writes backend' marked y x1 x2)
  /\ (forall c b, marked (c * stride + b) = 0 ->
        pair_writes backend' marked y c b = [])
  /\ (forall c b, marked (c * stride + b) <> 0 ->
        exists v, v <> 0
        /\ pair_writes backend' marked y c b
           = [vga_set_reset c; vga_bit_mask (marked (c * stride + b));
              fb_store (map_address (head backend) + y * stride + b) v])
  /\ (exists rest,
        snd (flush_head backend) = reset_sequence ++ rest
        /\ plane_protocol rest).
Proof.
  intros Hactive Hs Hx Hy Hrow Hfit stride result backend' marked.
  subst backend' marked result.
  destruct (flush_row x1 x2 (backend, mask, events) y)
    as [[b1 m1] e1] eqn:E. cbn [fst snd].
  apply flush_row_spec in E as (Hdev & _ & _ & uploads & Hup & ->).
  destruct Hdev as (_ & Hstride & _ & _ & _ & Hmap & _).
  split; [|split; [|split]].
  - exists uploads. split; [exact Hup|].
    rewrite write_loops_row_writes by (rewrite ?Hstride; assumption).
    reflexivity.
  - intros c b Hzero. unfold pair_writes. rewrite Hstride. fold stride.
    rewrite Hzero. reflexivity.
  - intros c b Hnonzero. unfold pair_writes. rewrite Hstride, Hmap.
    fold stride. apply Z.eqb_neq in Hnonzero. rewrite Hnonzero.
    eexists. split; [apply or_one_nonzero | reflexivity].
  - rewrite (flush_head_active _ Hactive). cbn [snd].
    eexists. split; [reflexivity|].
    apply plane_protocol_app;
      [apply uploads_only_protocol, set_palette_uploads|].
    destruct (flush_areas backend _ []) as [b2 issued] eqn:Eareas.
    apply flush_areas_spec in Eareas as (_ & _ & issued' & -> & Hp).
    exact Hp.
Qed.

(** C6.  After an active flush the damaged region is empty, so a second flush
    right after it processes no rectangle: it issues the opening sequence and
    the palette upload only, no plane select, no bit mask and no store, and
    leaves the backend as it is. *)
Theorem second_flush_writes_no_plane backend :
  is_active backend = true ->
  let after := fst (flush_head backend) in
  updated_areas (pixel_buffer (head after)) = []
  /\ is_active after = true
  /\ flush_head after
     = (after, reset_sequence ++ set_palette after (head after))
  /\ (forall e, In e (snd (flush_head after)) -> is_plane_write e = false).
Proof.
  intros Hactive after.
  assert (Hafter : updated_areas (pixel_buffer (head after)) = []
                   /\ is_active after = true).
  { subst after. rewrite (flush_head_active _ Hactive). cbn [fst].
    split; [reflexivity|].
    destruct (flush_areas backend _ []) as [b1 issued] eqn:E.
    apply flush_areas_spec in E as (Hdev & _). cbn [fst].
    destruct Hdev as (_ & _ & Hact & _). cbn. congruence. }
  destruct Hafter as (Hregion & Hact).
  assert (Hsecond : flush_head after
            = (after, reset_sequence ++ set_palette after (head after))).
  { rewrite (flush_head_active _ Hact), Hregion, flush_areas_nil.
    cbn [fst snd]. rewrite app_nil_r. f_equal.
    destruct after as [fd [[data region] ar ma sz r g b n] stride active].
    cbn in Hregion. subst region. reflexivity. }
  split; [exact Hregion|]. split; [exact Hact|]. split; [exact Hsecond|].
  rewrite Hsecond. cbn [snd]. intros e Hin.
  apply in_app_or in Hin as [Hin | Hin].
  - unfold reset_sequence in Hin. cbn [In] in Hin.
    repeat (destruct Hin as [<- | Hin]; [reflexivity|]). destruct Hin.
  - pose proof (set_palette_uploads after (head after)) as Hup.
    unfold uploads_only in Hup. rewrite Forall_forall in Hup.
    specialize (Hup e Hin). destruct e; try discriminate; reflexivity.
Qed.

(** C7.  While the backend is inactive, [flush_head] returns at once: it
    issues no register write, no store, no terminal mode change and no
    palette upload, and the backend, damaged region included, is
    unchanged. *)
Theorem inactive_flush_is_noop backend :
  is_active backend = false ->
  flush_head backend = (backend, []).
Proof.
  intros Hinactive. unfold flush_head. rewrite Hinactive. reflexivity.
Qed.

(** C8, amended.  An active flush issues the opening sequence and then, when
    the device is open and the palette is not empty, one upload of the whole
    palette (start 0, length [palette_size], the three channel arrays),
    before any rectangle is processed; with a closed device or an empty
    palette nothing is uploaded at that point. *)
Theorem active_flush_uploads_palette backend :
  is_active backend = true ->
  let h := head backend in
  let upload :=
    if (device_fd backend <? 0) || (palette_size h =? 0) then []
    else [ioctl_FBIOPUTCMAP (device_fd backend)
            {| cmap_start := 0; cmap_len := palette_size h;
               cmap_red := red h; cmap_green := green h;
               cmap_blue := blue h |}] in
  snd (flush_head backend)
  = reset_sequence ++ upload
    ++ snd (flush_areas backend
              (ply_region_get_sorted_rectangle_list
                 (ply_pixel_buffer_get_updated_areas (pixel_buffer h))) []).
Proof.
  intros Hactive h upload. rewrite (flush_head_active _ Hactive). cbn [snd].
  subst upload. unfold set_palette. fold h.
  destruct (device_fd backend <? 0); [reflexivity|].
  destruct (palette_size h =? 0); reflexivity.
Qed.

(** C9, amended.  When the device memory is mapped, activation (also when it
    comes from the console-change notification) sets the active flag, adds
    the whole head area to the damaged region and then flushes: whatever was
    damaged before, every pixel of the head area gets its plane selected, a
    bit mask with its bit set and a store into the device byte that holds
    it, and the damaged region ends up empty. *)
Theorem activation_repaints_head_area backend :
  map_address (head backend) <> MAP_FAILED ->
  0 <= palette_size (head backend) <= 16 ->
  rectangle_fits (row_stride backend) (area (head backend)) ->
  let damaged :=
    ply_region_add_rectangle
      (updated_areas (pixel_buffer (head backend))) (area (head backend)) in
  let result := activate backend in
  on_active_vt_changed true backend = result
  /\ result
     = flush_head
         (with_head (with_is_active backend true)
            (with_pixel_buffer (head backend)
               {| argb32_data := argb32_data (pixel_buffer (head backend));
                  updated_areas := damaged |}))
  /\ In (area (head backend)) damaged
  /\ is_active (fst result) = true
  /\ updated_areas (pixel_buffer (head (fst result))) = []
  /\ (forall x y, inside (area (head backend)) x y ->
        exists c m v,
          0 <= c < 16 /\ Z.testbit m (7 - x mod 8) = true
          /\ occurs [vga_set_reset c; vga_bit_mask m;
                     fb_store (map_address (head backend)
                               + y * row_stride backend + x / 8) v]
                    (snd result)).
Proof.
  intros Hmapped Hsize Hfits damaged result.
  assert (Hresult : result
    = flush_head
        (with_head (with_is_active backend true)
           (with_pixel_buffer (head backend)
              {| argb32_data := argb32_data (pixel_buffer (head backend));
                 updated_areas := damaged |}))).
  { subst result. unfold activate.
    cbn [with_is_active head].
    apply Z.eqb_neq in Hmapped. rewrite Hmapped. reflexivity. }
  split; [reflexivity|]. split; [exact Hresult|].
  split; [subst damaged; apply in_or_app; right; left; reflexivity|].
  rewrite Hresult. rewrite flush_head_active by reflexivity.
  cbn [fst snd with_head with_is_active with_pixel_buffer head pixel_buffer
       updated_areas].
  destruct (flush_areas _ damaged []) as [b1 issued] eqn:E. cbn [fst snd].
  pose proof (flush_areas_spec _ _ _ _ _ E) as (Hdev & _).
  split; [destruct Hdev as (_ & _ & Hact & _); exact Hact|].
  split; [reflexivity|].
  intros x y Hinside.
  eapply flush_areas_covers in E as (c & m & v & Hc & Hbit & Hocc).
  - exists c, m, v. split; [exact Hc|]. split; [exact Hbit|].
    apply occurs_app_l, occurs_app_l. exact Hocc.
  - exact Hsize.
  - subst damaged. apply in_or_app. right. left. reflexivity.
  - exact Hfits.
  - exact Hinside.
Qed.

(** ** Further properties of the classifier *)

Lemma array_set_nat_length a : forall n v,
  length (array_set_nat a n v) = length a.
Proof.
  induction a as [|z a IH]; intros [|n] v; cbn; try reflexivity.
  rewrite IH. reflexivity.
Qed.

Lemma array_set_length a i v : length (array_set a i v) = length a.
Proof. apply array_set_nat_length. Qed.

Lemma nth_array_set_nat_same a : forall n v,
  (n < length a)%nat -> nth n (array_set_nat a n v) 0 = v.
Proof.
  induction a as [|z a IH]; intros [|n] v Hn; cbn in *; try lia.
  apply IH. lia.
Qed.

Lemma nth_array_set_nat_other a : forall n m v,
  n <> m -> nth m (array_set_nat a n v) 0 = nth m a 0.
Proof.
  induction a as [|z a IH]; intros [|n] [|m] v Hne; cbn; try reflexivity.
  - contradiction.
  - apply IH. congruence.
Qed.

Lemma array_get_set_same a i v :
  0 <= i < Z.of_nat (length a) -> array_get (array_set a i v) i = v.
Proof.
  intros Hi. unfold array_get, array_set.
  apply nth_array_set_nat_same. lia.
Qed.

Lemma array_get_set_other a i j v :
  0 <= i -> 0 <= j -> i <> j ->
  array_get (array_set a i v) j = array_get a j.
Proof.
  intros Hi Hj Hne. unfold array_get, array_set.
  apply nth_array_set_nat_other. lia.
Qed.

Lemma channel_range p : 0 <= Z.land p 255 < 256.
Proof.
  change 255 with (Z.ones 8). rewrite Z.land_ones by lia.
  change 256 with (2 ^ 8). apply Z.mod_pos_bound. lia.
Qed.

Lemma stored_channel r : 0 <= r < 256 -> u16 (Z.shiftl r 8) = r * 2 ^ 8.
Proof.
  intros Hr. unfold u16. rewrite Z.shiftl_mul_pow2 by lia.
  apply Z.mod_small. lia.
Qed.

Lemma stored_channel_shift r k :
  0 <= r < 256 -> 0 <= k ->
  Z.shiftr (u16 (Z.shiftl r 8)) (8 + k) = Z.shiftr r k.
Proof.
  intros Hr Hk. rewrite stored_channel by exact Hr.
  rewrite <- Z.shiftl_mul_pow2 by lia.
  rewrite Z.shiftr_shiftl_r by lia. f_equal. lia.
Qed.

Lemma stored_channel_value r :
  0 <= r < 256 -> channel_value true (u16 (Z.shiftl r 8)).
Proof.
  intros Hr. rewrite stored_channel by exact Hr. cbn [channel_value].
  split; [lia|]. apply Z.mod_mul. lia.
Qed.

(** A match at level 6 is a match at level 7. *)
Lemma channels_equal_coarser h r g b i :
  channels_equal h r g b 6 i -> channels_equal h r g b 7 i.
Proof.
  assert (Hone : forall stored input,
            Z.shiftr stored (8 + 6) = Z.shiftr input 6 ->
            Z.shiftr stored (8 + 7) = Z.shiftr input 7).
  { intros stored input H.
    change (Z.shiftr stored (8 + 7)) with (Z.shiftr stored (8 + 6 + 1)).
    change (Z.shiftr input 7) with (Z.shiftr input (6 + 1)).
    rewrite <- (Z.shiftr_shiftr stored (8 + 6) 1) by lia.
    rewrite <- (Z.shiftr_shiftr input 6 1) by lia.
    rewrite H. reflexivity. }
  unfold channels_equal. intros (Hr & Hg & Hb).
  repeat split; apply Hone; assumption.
Qed.

(** The four ways a call can end. *)
Lemma classify_cases backend h pixel_value :
  let r := red_of pixel_value in
  let g := green_of pixel_value in
  let b := blue_of pixel_value in
  let result := argb32_pixel_value_to_color_index backend h pixel_value in
  (exists i, first_match h r g b 6 i /\ result = (i, h, []))
  \/ (no_match h r g b 6 /\ palette_size h < 16
      /\ result = allocate_slot backend h r g b)
  \/ (exists i, no_match h r g b 6 /\ 16 <= palette_size h
                /\ first_match h r g b 7 i /\ result = (i, h, []))
  \/ (no_match h r g b 6 /\ 16 <= palette_size h /\ no_match h r g b 7
      /\ result = (u32 (palette_size h - 1), h, [])).
Proof.
  intros r g b result. subst result.
  unfold argb32_pixel_value_to_color_index. cbn [shift_loop].
  fold (red_of pixel_value) (green_of pixel_value) (blue_of pixel_value).
  fold r g b.
  assert (Hsome : forall k i,
            scan_palette h r g b k (Z.to_nat (palette_size h)) 0 = Some i ->
            first_match h r g b k i).
  { intros k i H. apply scan_palette_some in H as (Hr & Hi & Hlow).
    repeat split; try lia; try apply Hi. exact Hlow. }
  assert (Hnone : forall k,
            scan_palette h r g b k (Z.to_nat (palette_size h)) 0 = None ->
            no_match h r g b k).
  { intros k H j Hj. apply (proj1 (scan_palette_none _ _ _ _ _ _ _) H). lia. }
  destruct (scan_palette h r g b 6 _ 0) as [i6|] eqn:E6.
  - left. exists i6. split; [apply Hsome, E6 | reflexivity].
  - right. apply Hnone in E6.
    destruct (Z.ltb_spec (palette_size h) 16) as [Hlt|Hge].
    + left. repeat split; assumption.
    + right. change (6 + 1) with 7.
      destruct (scan_palette h r g b 7 _ 0) as [i7|] eqn:E7.
      * left. exists i7. repeat split; try assumption; try apply Hsome, E7.
        apply (Hsome _ _ E7). apply (Hsome _ _ E7).
      * right. apply Hnone in E7. repeat split; assumption.
Qed.

Lemma classify_first_match_6 backend h pixel_value i :
  first_match h (red_of pixel_value) (green_of pixel_value)
              (blue_of pixel_value) 6 i ->
  argb32_pixel_value_to_color_index backend h pixel_value = (i, h, []).
Proof.
  intros H6. unfold argb32_pixel_value_to_color_index. cbn [shift_loop].
  fold (red_of pixel_value) (green_of pixel_value) (blue_of pixel_value).
  rewrite (scan_first_match _ _ _ _ _ _ H6). reflexivity.
Qed.

(** What [allocate_slot] leaves behind on a well-formed palette with room. *)
Lemma allocate_slot_spec backend h pixel_value :
  well_formed_palette h -> palette_size h < 16 ->
  let r := red_of pixel_value in
  let g := green_of pixel_value in
  let b := blue_of pixel_value in
  let h' := snd (fst (allocate_slot backend h r g b)) in
  well_formed_palette h'
  /\ palette_size h' = palette_size h + 1
  /\ (forall k, 0 <= k -> channels_equal h' r g b k (palette_size h))
  /\ (forall j, 0 <= j -> j <> palette_size h ->
        slot_color h' j = slot_color h j).
Proof.
  intros (Hlr & Hlg & Hlb & Hsize & Hval) Hroom r g b h'.
  subst h'. unfold allocate_slot. cbn [fst snd].
  pose proof (channel_range (Z.shiftr pixel_value 16)) as Hr.
  pose proof (channel_range (Z.shiftr pixel_value 8)) as Hg.
  pose proof (channel_range pixel_value) as Hb.
  fold (red_of pixel_value) in Hr. fold (green_of pixel_value) in Hg.
  fold (blue_of pixel_value) in Hb. fold r in Hr. fold g in Hg. fold b in Hb.
  assert (Hnew : u32 (palette_size h + 1) = palette_size h + 1).
  { unfold u32. apply Z.mod_small. lia. }
  assert (Hother : forall j, 0 <= j -> j <> palette_size h ->
            slot_color
              (with_palette h
                 (array_set (red h) (palette_size h) (u16 (Z.shiftl r 8)))
                 (array_set (green h) (palette_size h) (u16 (Z.shiftl g 8)))
                 (array_set (blue h) (palette_size h) (u16 (Z.shiftl b 8)))
                 (u32 (palette_size h + 1))) j
            = slot_color h j).
  { intros j Hj Hne. unfold slot_color. cbn [with_palette red green blue].
    rewrite !array_get_set_other by lia. reflexivity. }
  split; [|split; [|split]].
  - unfold well_formed_palette.
    cbn [with_palette red green blue palette_size].
    rewrite !array_set_length, Hnew.
    split; [exact Hlr|]. split; [exact Hlg|]. split; [exact Hlb|].
    split; [lia|]. intros j Hj.
    destruct (Z.eq_dec j (palette_size h)) as [->|Hne].
    + rewrite !array_get_set_same by lia.
      replace (palette_size h <? palette_size h + 1) with true
        by (symmetry; apply Z.ltb_lt; lia).
      repeat split; apply stored_channel_value; assumption.
    + rewrite !array_get_set_other by lia.
      replace (j <? palette_size h + 1) with (j <? palette_size h).
      * apply Hval, Hj.
      * destruct (Z.ltb_spec j (palette_size h)),
          (Z.ltb_spec j (palette_size h + 1)); try reflexivity; lia.
  - cbn [with_palette palette_size]. exact Hnew.
  - intros k Hk. unfold channels_equal.
    cbn [with_palette red green blue].
    rewrite !array_get_set_same by lia.
    rewrite !stored_channel_shift by assumption. repeat split.
  - exact Hother.
Qed.

Lemma array_get_zeroes n j : array_get (repeat 0 n) j = 0.
Proof.
  unfold array_get.
  destruct (nth_in_or_default (Z.to_nat j) (repeat 0 n) 0) as [Hin | Hdef].
  - apply repeat_spec in Hin. exact Hin.
  - exact Hdef.
Qed.

Lemma initialize_head_well_formed fresh h :
  well_formed_palette (initialize_head fresh h).
Proof.
  unfold well_formed_palette, initialize_head.
  cbn [with_palette red green blue palette_size].
  split; [reflexivity|]. split; [reflexivity|]. split; [reflexivity|].
  split; [lia|]. intros j Hj.
  replace (j <? 0) with false by (symmetry; apply Z.ltb_ge; lia).
  rewrite !array_get_zeroes. cbn [channel_value]. repeat split.
Qed.

Lemma classify_well_formed backend h pixel_value :
  well_formed_palette h ->
  well_formed_palette
    (snd (fst (argb32_pixel_value_to_color_index backend h pixel_value))).
Proof.
  intros Hwf.
  destruct (classify_cases backend h pixel_value)
    as [(i & _ & E) | [(_ & Hroom & E) | [(i & _ & _ & _ & E)
                                          | (_ & _ & _ & E)]]];
    rewrite E; cbn [fst snd]; try exact Hwf.
  apply (allocate_slot_spec backend h pixel_value Hwf Hroom).
Qed.

Lemma reachable_head_well_formed h :
  reachable_head h -> well_formed_palette h.
Proof.
  induction 1 as [fresh h | backend h p _ IH].
  - apply initialize_head_well_formed.
  - apply classify_well_formed, IH.
Qed.

Lemma channels_equal_slot_color h h' r g b k j :
  slot_color h' j = slot_color h j ->
  channels_equal h' r g b k j <-> channels_equal h r g b k j.
Proof.
  unfold slot_color, channels_equal. intros [= -> -> ->]. reflexivity.
Qed.

Lemma classify_stable backend backend' h pixel_value :
  reachable_head h ->
  let first := argb32_pixel_value_to_color_index backend h pixel_value in
  argb32_pixel_value_to_color_index backend' (snd (fst first)) pixel_value
  = (fst (fst first), snd (fst first), []).
Proof.
  intros Hreach first. subst first.
  apply reachable_head_well_formed in Hreach.
  assert (Hsame : forall i,
            argb32_pixel_value_to_color_index backend h pixel_value
            = (i, h, []) ->
            argb32_pixel_value_to_color_index backend' h pixel_value
            = (i, h, [])).
  { intros i E.
    destruct (classify_cases backend' h pixel_value)
      as [(i' & _ & E') | [(_ & Hroom & E') | [(i' & _ & _ & _ & E')
                                               | (_ & _ & _ & E')]]];
      destruct (classify_cases backend h pixel_value)
        as [(i2 & H6 & E2) | [(Hno & Hroom2 & E2) | [(i2 & Hno & Hfull & H7 & E2)
                                                     | (Hno & Hfull & Hno7 & E2)]]];
      rewrite E in E2;
      unfold argb32_pixel_value_to_color_index in *; cbn [shift_loop] in *;
      fold (red_of pixel_value) (green_of pixel_value)
           (blue_of pixel_value) in *.
    all: try (rewrite (scan_first_match _ _ _ _ _ _ H6) in *; exact E).
    all: rewrite (scan_no_match _ _ _ _ _ Hno) in *.
    all: try (apply Z.ltb_lt in Hroom2; rewrite Hroom2 in *;
              unfold allocate_slot in E;
              apply triple_eq in E as (_ & Hh & _);
              apply (f_equal palette_size) in Hh;
              cbn [with_palette palette_size] in Hh;
              destruct Hreach as (_ & _ & _ & Hsize & _);
              unfold u32 in Hh; rewrite Z.mod_small in Hh by lia; lia).
    all: apply Z.ltb_ge in Hfull; rewrite Hfull in *; exact E. }
  destruct (classify_cases backend h pixel_value)
    as [(i & _ & E) | [(Hno & Hroom & E) | [(i & _ & _ & _ & E)
                                            | (_ & _ & _ & E)]]];
    rewrite E; cbn [fst snd]; try (apply Hsame; exact E).
  pose proof (allocate_slot_spec backend h pixel_value Hreach Hroom)
    as (Hwf' & Hsize' & Hnew & Hold).
  cbv zeta in Hwf', Hsize', Hnew, Hold.
  unfold allocate_slot in *. cbn [fst snd] in *.
  apply classify_first_match_6.
  destruct Hreach as (_ & _ & _ & Hsize & _).
  split; [lia|]. split; [apply Hnew; lia|].
  intros j Hj Heq.
  apply (channels_equal_slot_color h _ _ _ _ _ j) in Heq;
    [|apply Hold; lia].
  exact (Hno j ltac:(lia) Heq).
Qed.

Lemma classify_slot_color backend h pixel_value j :
  0 <= j < palette_size h ->
  slot_color
    (snd (fst (argb32_pixel_value_to_color_index backend h pixel_value))) j
  = slot_color h j.
Proof.
  intros Hj.
  destruct (classify_cases backend h pixel_value)
    as [(i & _ & E) | [(_ & _ & E) | [(i & _ & _ & _ & E)
                                      | (_ & _ & _ & E)]]];
    rewrite E; cbn [fst snd]; try reflexivity.
  unfold allocate_slot, slot_color. cbn [fst snd with_palette red green blue].
  rewrite !array_get_set_other by lia. reflexivity.
Qed.

(** X1.  On a head a session can reach, classifying a colour a second time
    right after the first returns the same slot, issues nothing and leaves
    the head as the first call left it, also when the first call had to
    allocate the slot. *)
Theorem classification_is_stable backend backend' h pixel_value :
  reachable_head h ->
  let first := argb32_pixel_value_to_color_index backend h pixel_value in
  argb32_pixel_value_to_color_index backend' (snd (fst first)) pixel_value
  = (fst (fst first), snd (fst first), []).
Proof. apply classify_stable. Qed.

(** X2.  A classification call never rewrites a slot that is in use: it reads
    the three channels of every existing slot and writes at most the first
    free one. *)
Theorem classification_keeps_slots backend h pixel_value j :
  0 <= j < palette_size h ->
  slot_color
    (snd (fst (argb32_pixel_value_to_color_index backend h pixel_value))) j
  = slot_color h j.
Proof. apply classify_slot_color. Qed.

Lemma same_bucket_slot_color h h' i j :
  slot_color h' i = slot_color h i -> slot_color h' j = slot_color h j ->
  same_bucket h' i j -> same_bucket h i j.
Proof.
  unfold slot_color, same_bucket.
  intros [= -> -> ->] [= -> -> ->] H. exact H.
Qed.

(** X3.  No two slots of a reachable palette hold colours from the same
    level-6 bucket: a slot is only allocated after the scan at level 6 found
    no slot that agrees with the new colour in the top two bits of every
    channel. *)
Theorem palette_slots_in_distinct_buckets h i j :
  reachable_head h ->
  0 <= i < j -> j < palette_size h ->
  ~ same_bucket h i j.
Proof.
  intros Hreach. revert i j.
  induction Hreach as [fresh h | backend h p Hreach IH]; intros i j Hi Hj.
  - rewrite initialize_head_palette_size in Hj. lia.
  - pose proof (reachable_head_well_formed _ Hreach) as Hwf.
    destruct (classify_cases backend h p)
      as [(i' & _ & E) | [(Hno & Hroom & E) | [(i' & _ & _ & _ & E)
                                               | (_ & _ & _ & E)]]];
      rewrite E in Hj |- *; cbn [fst snd] in Hj |- *;
      [ exact (IH i j Hi Hj) | | exact (IH i j Hi Hj) | exact (IH i j Hi Hj) ].
    pose proof (allocate_slot_spec backend h p Hwf Hroom)
      as (_ & Hsize' & Hnew & Hold).
    cbv zeta in Hsize', Hnew, Hold.
    intros Hbucket.
    destruct (Z.eq_dec j (palette_size h)) as [->|Hne].
    + apply (Hno i ltac:(lia)).
      destruct (Hnew 6 ltac:(lia)) as (Hr & Hg & Hb).
      destruct Hbucket as (Br & Bg & Bb).
      pose proof (Hold i ltac:(lia) ltac:(lia)) as Hcolor.
      unfold slot_color in Hcolor.
      apply triple_eq in Hcolor as (Cr & Cg & Cb).
      unfold channels_equal.
      split; [|split].
      * rewrite <- Cr. exact (eq_trans Br Hr).
      * rewrite <- Cg. exact (eq_trans Bg Hg).
      * rewrite <- Cb. exact (eq_trans Bb Hb).
    + apply (IH i j); try lia.
      revert Hbucket. apply same_bucket_slot_color; apply Hold; lia.
Qed.

(** X4.  A reachable palette keeps its shape: three arrays of 16 entries,
    between 0 and 16 slots in use, every slot in use holding in each channel
    an 8-bit value shifted left by 8, every slot not in use still zero. *)
Theorem reachable_palette_shape h :
  reachable_head h ->
  length (red h) = 16%nat /\ length (green h) = 16%nat
  /\ length (blue h) = 16%nat
  /\ 0 <= palette_size h <= 16
  /\ (forall j, 0 <= j < palette_size h ->
        exists r g b,
          0 <= r < 256 /\ 0 <= g < 256 /\ 0 <= b < 256
          /\ slot_color h j = (r * 256, g * 256, b * 256))
  /\ (forall j, palette_size h <= j < 16 -> slot_color h j = (0, 0, 0)).
Proof.
  intros Hreach.
  destruct (reachable_head_well_formed _ Hreach)
    as (Hlr & Hlg & Hlb & Hsize & Hval).
  split; [exact Hlr|]. split; [exact Hlg|]. split; [exact Hlb|].
  split; [exact Hsize|].
  assert (Hbyte : forall v, channel_value true v ->
            exists c, 0 <= c < 256 /\ v = c * 256).
  { intros v (Hrange & Hmod). exists (v / 2 ^ 8).
    pose proof (Z.div_mod v (2 ^ 8) ltac:(lia)) as Hdm.
    split; [|lia].
    split; [apply Z.div_pos; lia | apply Z.div_lt_upper_bound; lia]. }
  split.
  - intros j Hj. destruct (Hval j ltac:(lia)) as (Hr & Hg & Hb).
    replace (j <? palette_size h) with true in *
      by (symmetry; apply Z.ltb_lt; lia).
    destruct (Hbyte _ Hr) as (r & Rr & Er).
    destruct (Hbyte _ Hg) as (g & Rg & Eg).
    destruct (Hbyte _ Hb) as (b & Rb & Eb).
    exists r, g, b. unfold slot_color. rewrite Er, Eg, Eb.
    repeat split; lia.
  - intros j Hj. destruct (Hval j ltac:(lia)) as (Hr & Hg & Hb).
    replace (j <? palette_size h) with false in *
      by (symmetry; apply Z.ltb_ge; lia).
    cbn [channel_value] in *. unfold slot_color. rewrite Hr, Hg, Hb.
    reflexivity.
Qed.

(** X6.  The slot the classifier returns on a reachable head agrees with the
    input colour in the top two bits of every channel, or, when 16 slots
    are in use and none does, in the top bit of every channel; only when
    no slot agrees even in the top bits does it return slot 15 whatever its
    colour. *)
Theorem returned_slot_agrees_in_top_bits backend h pixel_value :
  reachable_head h ->
  let r := Z.land (Z.shiftr pixel_value 16) 255 in
  let g := Z.land (Z.shiftr pixel_value 8) 255 in
  let b := Z.land pixel_value 255 in
  let result := argb32_pixel_value_to_color_index backend h pixel_value in
  let index := fst (fst result) in
  let h' := snd (fst result) in
  channels_equal h' r g b 6 index
  \/ (palette_size h = 16 /\ no_match h r g b 6
      /\ channels_equal h' r g b 7 index)
  \/ (palette_size h = 16 /\ no_match h r g b 7 /\ index = 15 /\ h' = h).
Proof.
  intros Hreach r g b result index h'. subst index h' result.
  pose proof (reachable_head_well_formed _ Hreach) as Hwf.
  pose proof Hwf as (_ & _ & _ & Hsize & _).
  fold (red_of pixel_value) in r. fold (green_of pixel_value) in g.
  fold (blue_of pixel_value) in b.
  destruct (classify_cases backend h pixel_value)
    as [(i & H6 & E) | [(Hno & Hroom & E) | [(i & Hno & Hfull & H7 & E)
                                             | (Hno & Hfull & Hno7 & E)]]];
    rewrite E; cbn [fst snd].
  - left. apply H6.
  - left.
    pose proof (allocate_slot_spec backend h pixel_value Hwf Hroom)
      as (_ & _ & Hnew & _).
    apply (Hnew 6). lia.
  - right. left. split; [lia|]. split; [exact Hno | apply H7].
  - right. right. split; [lia|]. split; [exact Hno7|].
    split; [|reflexivity].
    unfold u32. rewrite Z.mod_small by lia. lia.
Qed.

(** ** A flush as a sequence of steps *)

Lemma flush_steps_app a t1 b t2 c :
  flush_steps a t1 b -> flush_steps b t2 c -> flush_steps a (t1 ++ t2) c.
Proof.
  intros H1 H2. induction H1; cbn [app].
  - exact H2.
  - rewrite <- app_assoc. econstructor; eauto.
  - constructor; auto.
Qed.

Lemma flush_steps_flat_map {A : Type} b (f : A -> list event) (l : list A) :
  (forall a, In a l -> flush_steps b (f a) b) ->
  flush_steps b (flat_map f l) b.
Proof.
  induction l as [|a l IH]; intros Hall; cbn [flat_map].
  - constructor.
  - eapply flush_steps_app.
    + apply Hall. left. reflexivity.
    + apply IH. intros a' Hin. apply Hall. right. exact Hin.
Qed.

Lemma write_byte_steps b backend mask y c b0 :
  0 <= c < 16 -> flush_steps b (write_byte backend mask y c [] b0) b.
Proof.
  intros Hc. unfold write_byte.
  destruct (Z.eqb_spec (mask (u32 (c * row_stride backend + b0))) 0);
    [constructor|].
  cbn [app]. constructor; try assumption;
    [apply or_one_nonzero | constructor].
Qed.

Lemma mark_pixels_steps y xs :
  forall backend mask events backend' marked events',
  fold_left (mark_pixel y) xs (backend, mask, events)
  = (backend', marked, events') ->
  exists issued, events' = events ++ issued
                 /\ flush_steps backend issued backend'.
Proof.
  induction xs as [|x xs IH];
    intros backend mask events backend' marked events'; cbn [fold_left].
  - intros [= <- <- <-]. exists []. rewrite app_nil_r.
    split; [reflexivity | constructor].
  - unfold mark_pixel at 2.
    destruct (classify_pixel backend y x) as [[i b1] issued1] eqn:E.
    intros Hfold. apply IH in Hfold as (issued & -> & Hsteps).
    exists (issued1 ++ issued). rewrite app_assoc. split; [reflexivity|].
    econstructor; eauto.
Qed.

Lemma flush_row_steps x1 x2 y backend mask events backend' marked events' :
  flush_row x1 x2 (backend, mask, events) y = (backend', marked, events') ->
  exists issued, events' = events ++ issued
                 /\ flush_steps backend issued backend'.
Proof.
  unfold flush_row.
  destruct (fold_left (mark_pixel y) (zrange x1 x2) _)
    as [[b1 m1] e1] eqn:E.
  rewrite write_planes_emit. intros Heq.
  apply triple_eq in Heq as (<- & <- & <-).
  apply mark_pixels_steps in E as (issued & -> & Hsteps).
  eexists. rewrite <- app_assoc. split; [reflexivity|].
  eapply flush_steps_app; [exact Hsteps|].
  apply flush_steps_flat_map. intros c Hc. apply in_zrange in Hc.
  apply flush_steps_flat_map. intros b0 _. apply write_byte_steps, Hc.
Qed.

Lemma flush_rows_steps x1 x2 rows :
  forall backend mask events backend' mask' events',
  fold_left (flush_row x1 x2) rows (backend, mask, events)
  = (backend', mask', events') ->
  exists issued, events' = events ++ issued
                 /\ flush_steps backend issued backend'.
Proof.
  induction rows as [|y rows IH];
    intros backend mask events backend' mask' events'; cbn [fold_left].
  - intros [= <- <- <-]. exists []. rewrite app_nil_r.
    split; [reflexivity | constructor].
  - destruct (flush_row x1 x2 (backend, mask, events) y)
      as [[b1 m1] e1] eqn:E.
    intros Hfold. apply IH in Hfold as (issued & -> & Hsteps).
    apply flush_row_steps in E as (issued1 & -> & Hsteps1).
    exists (issued1 ++ issued). rewrite app_assoc. split; [reflexivity|].
    eapply flush_steps_app; eassumption.
Qed.

Lemma flush_area_steps backend r :
  flush_steps backend (snd (flush_area backend r))
              (fst (flush_area backend r)).
Proof.
  unfold flush_area.
  destruct (fold_left _ _ _) as [[b1 m1] e1] eqn:E. cbn [fst snd].
  apply flush_rows_steps in E as (issued & -> & Hsteps). exact Hsteps.
Qed.

Lemma flush_areas_steps areas : forall backend,
  flush_steps backend (snd (flush_areas backend areas []))
              (fst (flush_areas backend areas [])).
Proof.
  induction areas as [|r areas IH]; intros backend.
  - rewrite flush_areas_nil. constructor.
  - rewrite flush_areas_cons, flush_areas_emit. cbn [fst snd app].
    eapply flush_steps_app; [apply flush_area_steps | apply IH].
Qed.

(** ** What the steps of a flush keep *)

Lemma classify_pixel_head backend y x :
  exists pixel_value,
    head (snd (fst (classify_pixel backend y x)))
    = snd (fst (argb32_pixel_value_to_color_index
                  backend (head backend) pixel_value))
    /\ snd (classify_pixel backend y x)
       = snd (argb32_pixel_value_to_color_index
                backend (head backend) pixel_value).
Proof.
  unfold classify_pixel, ply_pixel_buffer_get_argb32_data.
  exists (argb32_data (pixel_buffer (head backend))
            (u64 (x + u64 (y * rect_width (area (head backend)))))).
  destruct (argb32_pixel_value_to_color_index backend (head backend) _)
    as [[i h'] issued]. cbn [fst snd with_head head].
  split; reflexivity.
Qed.

Lemma flush_steps_keep b evs b' :
  flush_steps b evs b' ->
  reachable_head (head b) ->
  same_device b b'
  /\ reachable_head (head b')
  /\ palette_size (head b) <= palette_size (head b')
  /\ (forall j, 0 <= j < palette_size (head b) ->
        slot_color (head b') j = slot_color (head b) j).
Proof.
  induction 1 as [b | b y x i b1 issued rest b' E _ IH | b c m p v rest b' _ _ _ _ IH];
    intros Hreach.
  - split; [apply same_device_refl|]. split; [exact Hreach|].
    split; [lia | reflexivity].
  - pose proof (classify_pixel_spec _ _ _ _ _ _ E) as (Hdev & _ & Hbound).
    pose proof (reachable_head_palette_size _ Hreach) as Hsize.
    destruct (classify_pixel_head b y x) as (pixel_value & Hhead & _).
    rewrite E in Hhead. cbn [fst snd] in Hhead.
    assert (Hreach1 : reachable_head (head b1)).
    { rewrite Hhead. constructor. exact Hreach. }
    destruct (IH Hreach1) as (Hdev' & Hreach' & Hle & Hslots).
    assert (Hle1 : palette_size (head b) <= palette_size (head b1)).
    { rewrite Hhead.
      destruct (argb32_pixel_value_to_color_index b (head b) pixel_value)
        as [[i0 h0] issued0] eqn:E0.
      apply classify_step in E0; [|exact Hsize]. cbn [fst snd].
      destruct E0 as (_ & _ & [(-> & _) | (_ & Hinc & _)]); lia. }
    split; [exact (same_device_trans _ _ _ Hdev Hdev')|].
    split; [exact Hreach'|]. split; [lia|].
    intros j Hj. rewrite Hslots by lia. rewrite Hhead.
    apply classify_slot_color. exact Hj.
  - apply IH. exact Hreach.
Qed.

Lemma scan_palette_with_pixel_buffer h pb r g b k count : forall start,
  scan_palette (with_pixel_buffer h pb) r g b k count start
  = scan_palette h r g b k count start.
Proof.
  induction count as [|count IH]; intros start; cbn [scan_palette];
    [reflexivity|].
  rewrite IH. reflexivity.
Qed.

Lemma classify_with_pixel_buffer backend h pb pixel_value :
  argb32_pixel_value_to_color_index backend (with_pixel_buffer h pb)
    pixel_value
  = (fst (fst (argb32_pixel_value_to_color_index backend h pixel_value)),
     with_pixel_buffer
       (snd (fst (argb32_pixel_value_to_color_index backend h pixel_value)))
       pb,
     snd (argb32_pixel_value_to_color_index backend h pixel_value)).
Proof.
  unfold argb32_pixel_value_to_color_index. cbn [shift_loop].
  rewrite !scan_palette_with_pixel_buffer.
  cbn [with_pixel_buffer palette_size].
  destruct (scan_palette h _ _ _ 6 _ 0); [reflexivity|].
  destruct (palette_size h <? 16); [reflexivity|].
  destruct (scan_palette h _ _ _ (6 + 1) _ 0); reflexivity.
Qed.

Lemma reachable_with_pixel_buffer h pb :
  reachable_head h -> reachable_head (with_pixel_buffer h pb).
Proof.
  induction 1 as [fresh h | backend h p _ IH].
  - apply (reachable_fresh pb h).
  - pose proof (classify_with_pixel_buffer backend h pb p) as E.
    apply (f_equal (fun t => snd (fst t))) in E. cbn [fst snd] in E.
    rewrite <- E. constructor. exact IH.
Qed.

(** ** Colour-map uploads along a flush *)

Lemma last_upload_from trace : forall found,
  fold_left
    (fun found e =>
       match e with
       | ioctl_FBIOPUTCMAP _ cmap => Some cmap
       | _ => found
       end)
    trace found
  = match last_upload trace with
    | Some cmap => Some cmap
    | None => found
    end.
Proof.
  unfold last_upload.
  induction trace as [|e trace IH]; intros found; cbn [fold_left];
    [reflexivity|].
  rewrite IH. rewrite (IH (match e with
                           | ioctl_FBIOPUTCMAP _ cmap => Some cmap
                           | _ => None
                           end)).
  destruct (fold_left _ trace None); [reflexivity|].
  destruct e; reflexivity.
Qed.

Lemma last_upload_app t1 t2 :
  last_upload (t1 ++ t2)
  = match last_upload t2 with
    | Some cmap => Some cmap
    | None => last_upload t1
    end.
Proof.
  unfold last_upload at 1. rewrite fold_left_app.
  apply last_upload_from.
Qed.

(** What a classification call issues: nothing when the head is unchanged,
    and otherwise, on an open device, one upload of the palette it leaves
    behind. *)
Lemma classify_issued backend h pixel_value :
  reachable_head h ->
  let result := argb32_pixel_value_to_color_index backend h pixel_value in
  let h' := snd (fst result) in
  (h' = h /\ snd result = [])
  \/ (0 < palette_size h' <= 16 /\ reachable_head h'
      /\ snd result
         = if device_fd backend <? 0 then []
           else [ioctl_FBIOPUTCMAP (device_fd backend) (cmap_of h')]).
Proof.
  intros Hreach result h'. subst h' result.
  pose proof (reachable_classified backend h pixel_value Hreach) as Hreach'.
  pose proof (reachable_head_palette_size _ Hreach) as Hsize.
  destruct (classify_cases backend h pixel_value)
    as [(i & _ & E) | [(_ & Hroom & E) | [(i & _ & _ & _ & E)
                                          | (_ & _ & _ & E)]]];
    rewrite E in *; cbn [fst snd] in *; try (left; split; reflexivity).
  right.
  pose proof (reachable_head_palette_size _ Hreach') as Hsize'.
  unfold allocate_slot in *. cbn [fst snd] in *.
  assert (Hnew : u32 (palette_size h + 1) = palette_size h + 1).
  { unfold u32. apply Z.mod_small. lia. }
  cbn [with_palette palette_size] in Hsize' |- *.
  split; [lia|]. split; [exact Hreach'|].
  unfold set_palette, cmap_of. cbn [with_palette palette_size red green blue].
  destruct (device_fd backend <? 0); [reflexivity|].
  rewrite Hnew.
  replace (palette_size h + 1 =? 0) with false
    by (symmetry; apply Z.eqb_neq; lia).
  reflexivity.
Qed.

Lemma flush_steps_in_sync b evs b' :
  flush_steps b evs b' ->
  reachable_head (head b) -> 0 <= device_fd b ->
  forall prior, in_sync (head b) prior -> in_sync (head b') (prior ++ evs).
Proof.
  induction 1 as [b | b y x i b1 issued rest b' E Hrest IH
                  | b c m p v rest b' _ _ _ _ IH];
    intros Hreach Hfd prior Hsync.
  - rewrite app_nil_r. exact Hsync.
  - pose proof (classify_pixel_spec _ _ _ _ _ _ E) as (Hdev & _ & _).
    destruct (classify_pixel_head b y x) as (pixel_value & Hhead & Hissued).
    rewrite E in Hhead, Hissued. cbn [fst snd] in Hhead, Hissued.
    rewrite app_assoc. apply IH.
    + rewrite Hhead. constructor. exact Hreach.
    + destruct Hdev as (-> & _). exact Hfd.
    + destruct (classify_issued b (head b) pixel_value Hreach)
        as [(Hsame & Hnone) | (Hpos & _ & Hup)];
        cbv zeta in *; rewrite <- Hhead, <- Hissued in *.
      * rewrite Hsame, Hnone, app_nil_r. exact Hsync.
      * right. rewrite Hup.
        replace (device_fd b <? 0) with false
          by (symmetry; apply Z.ltb_ge; lia).
        rewrite last_upload_app. reflexivity.
  - change (vga_set_reset c :: vga_bit_mask m :: fb_store p v :: rest)
      with ([vga_set_reset c; vga_bit_mask m; fb_store p v] ++ rest).
    rewrite app_assoc. apply IH; try assumption.
    unfold in_sync in *. rewrite last_upload_app. exact Hsync.
Qed.

Lemma flush_steps_uploads b evs b' :
  flush_steps b evs b' ->
  reachable_head (head b) ->
  forall fd cmap, In (ioctl_FBIOPUTCMAP fd cmap) evs ->
    fd = device_fd b /\ 0 <= fd
    /\ exists h, reachable_head h /\ 0 < palette_size h /\ cmap = cmap_of h.
Proof.
  induction 1 as [b | b y x i b1 issued rest b' E Hrest IH
                  | b c m p v rest b' _ _ _ _ IH];
    intros Hreach fd cmap Hin.
  - destruct Hin.
  - pose proof (classify_pixel_spec _ _ _ _ _ _ E) as (Hdev & _ & _).
    destruct (classify_pixel_head b y x) as (pixel_value & Hhead & Hissued).
    rewrite E in Hhead, Hissued. cbn [fst snd] in Hhead, Hissued.
    apply in_app_or in Hin as [Hin | Hin].
    + destruct (classify_issued b (head b) pixel_value Hreach)
        as [(_ & Hnone) | (Hpos & Hreach1 & Hup)];
        cbv zeta in *; rewrite <- ?Hhead, <- Hissued in *.
      * rewrite Hnone in Hin. destruct Hin.
      * rewrite Hup in Hin.
        destruct (Z.ltb_spec (device_fd b) 0) as [|Hfd]; [destruct Hin|].
        destruct Hin as [[= <- <-] | []].
        split; [reflexivity|]. split; [exact Hfd|].
        exists (head b1). split; [exact Hreach1|]. split; [lia|reflexivity].
    + destruct Hdev as (Hfd & _). rewrite <- Hfd. apply IH; [|exact Hin].
      rewrite Hhead. constructor. exact Hreach.
  - apply IH; [exact Hreach|].
    destruct Hin as [Hin | [Hin | [Hin | Hin]]];
      try discriminate. exact Hin.
Qed.

(** X5.  After an active flush on an open device the hardware colour map
    matches the palette: the last upload the flush issued carries exactly
    the slot count and the three channel arrays the head ends up with; only
    when the palette is still empty has nothing been uploaded. *)
Theorem flush_leaves_color_map_in_sync backend :
  is_active backend = true ->
  0 <= device_fd backend ->
  reachable_head (head backend) ->
  let result := flush_head backend in
  let h' := head (fst result) in
  (palette_size h' = 0 /\ last_upload (snd result) = None)
  \/ last_upload (snd result) = Some (cmap_of h').
Proof.
  intros Hactive Hfd Hreach result h'. subst h' result.
  rewrite (flush_head_active _ Hactive). cbn [fst snd].
  pose proof (flush_areas_steps
                (updated_areas (pixel_buffer (head backend))) backend)
    as Hsteps.
  destruct (flush_areas backend _ []) as [b1 issued]. cbn [fst snd] in *.
  rewrite app_assoc.
  apply (flush_steps_in_sync _ _ _ Hsteps Hreach Hfd).
  unfold in_sync. rewrite last_upload_app.
  unfold set_palette.
  replace (device_fd backend <? 0) with false
    by (symmetry; apply Z.ltb_ge; lia).
  destruct (Z.eqb_spec (palette_size (head backend)) 0) as [Hzero|_].
  - left. split; [exact Hzero | reflexivity].
  - right. reflexivity.
Qed.

(** X10.  A flush, active or not, leaves the device alone: descriptor, row
    stride, activation flag, head area, mapping and pixel data are as
    before; the palette only grows, to at most 16 slots, and every slot
    that was in use keeps its colour; the head is again one a session can
    reach. *)
Theorem flush_keeps_device_and_slots backend :
  reachable_head (head backend) ->
  let backend' := fst (flush_head backend) in
  device_fd backend' = device_fd backend
  /\ row_stride backend' = row_stride backend
  /\ is_active backend' = is_active backend
  /\ area (head backend') = area (head backend)
  /\ map_address (head backend') = map_address (head backend)
  /\ size (head backend') = size (head backend)
  /\ argb32_data (pixel_buffer (head backend'))
     = argb32_data (pixel_buffer (head backend))
  /\ palette_size (head backend) <= palette_size (head backend') <= 16
  /\ (forall j, 0 <= j < palette_size (head backend) ->
        slot_color (head backend') j = slot_color (head backend) j)
  /\ reachable_head (head backend').
Proof.
  intros Hreach backend'. subst backend'.
  destruct (is_active backend) eqn:Hactive.
  - rewrite (flush_head_active _ Hactive). cbn [fst].
    pose proof (flush_areas_steps
                  (updated_areas (pixel_buffer (head backend))) backend)
      as Hsteps.
    destruct (flush_areas backend _ []) as [b1 issued]. cbn [fst snd] in *.
    destruct (flush_steps_keep _ _ _ Hsteps Hreach)
      as (Hdev & Hreach1 & Hle & Hslots).
    destruct Hdev as (Hfd & Hstride & Hact & Hbuf & Harea & Hmap & Hsz).
    pose proof (reachable_head_palette_size _ Hreach1) as Hsize1.
    cbn [with_head with_pixel_buffer head device_fd row_stride is_active
         area map_address size pixel_buffer argb32_data palette_size].
    rewrite Hbuf.
    split; [exact Hfd|]. split; [exact Hstride|]. split; [congruence|].
    split; [exact Harea|]. split; [exact Hmap|]. split; [exact Hsz|].
    split; [reflexivity|]. split; [lia|]. split; [exact Hslots|].
    apply (reachable_with_pixel_buffer (head b1)). exact Hreach1.
  - unfold flush_head. rewrite Hactive. cbn [negb fst].
    pose proof (reachable_head_palette_size _ Hreach) as Hsize.
    do 7 (split; [first [reflexivity | exact Hactive]|]). split; [lia|].
    split; [reflexivity | exact Hreach].
Qed.

(** X11.  Every colour-map upload a flush issues goes to the backend's own
    open device and is a whole, non-empty palette: start 0, between 1 and
    16 entries, three channel arrays of 16 entries each. *)
Theorem flush_uploads_whole_palettes backend fd cmap :
  reachable_head (head backend) ->
  In (ioctl_FBIOPUTCMAP fd cmap) (snd (flush_head backend)) ->
  fd = device_fd backend /\ 0 <= fd
  /\ cmap_start cmap = 0 /\ 1 <= cmap_len cmap <= 16
  /\ length (cmap_red cmap) = 16%nat /\ length (cmap_green cmap) = 16%nat
  /\ length (cmap_blue cmap) = 16%nat.
Proof.
  intros Hreach Hin.
  assert (Hshape : forall h, reachable_head h -> 0 < palette_size h ->
            cmap_start (cmap_of h) = 0 /\ 1 <= cmap_len (cmap_of h) <= 16
            /\ length (cmap_red (cmap_of h)) = 16%nat
            /\ length (cmap_green (cmap_of h)) = 16%nat
            /\ length (cmap_blue (cmap_of h)) = 16%nat).
  { intros h Hh Hpos.
    destruct (reachable_head_well_formed _ Hh) as (Hlr & Hlg & Hlb & Hsz & _).
    cbn [cmap_of cmap_start cmap_len cmap_red cmap_green cmap_blue].
    repeat split; try assumption; lia. }
  destruct (is_active backend) eqn:Hactive.
  - rewrite (flush_head_active _ Hactive) in Hin. cbn [snd] in Hin.
    apply in_app_or in Hin as [Hin | Hin].
    { unfold reset_sequence in Hin. cbn [In] in Hin.
      repeat (destruct Hin as [Hin | Hin]; [discriminate|]). destruct Hin. }
    apply in_app_or in Hin as [Hin | Hin].
    + unfold set_palette in Hin.
      destruct (Z.ltb_spec (device_fd backend) 0) as [|Hfd]; [destruct Hin|].
      destruct (Z.eqb_spec (palette_size (head backend)) 0) as [|Hpos];
        [destruct Hin|].
      destruct Hin as [[= <- <-] | []].
      split; [reflexivity|]. split; [exact Hfd|].
      apply (Hshape (head backend) Hreach).
      pose proof (reachable_head_palette_size _ Hreach). lia.
    + pose proof (flush_areas_steps
                    (updated_areas (pixel_buffer (head backend))) backend)
        as Hsteps.
      destruct (flush_steps_uploads _ _ _ Hsteps Hreach fd cmap Hin)
        as (Hfd & Hopen & h & Hh & Hpos & ->).
      split; [exact Hfd|]. split; [exact Hopen|].
      apply Hshape; assumption.
  - unfold flush_head in Hin. rewrite Hactive in Hin. destruct Hin.
Qed.

(** ** Where a flush stores *)

Lemma in_pair_writes backend mask y c b0 e :
  In e (pair_writes backend mask y c b0) ->
  mask (c * row_stride backend + b0) <> 0
  /\ (e = vga_set_reset c
      \/ e = vga_bit_mask (mask (c * row_stride backend + b0))
      \/ exists v, e = fb_store (map_address (head backend)
                                 + y * row_stride backend + b0) v).
Proof.
  unfold pair_writes.
  destruct (Z.eqb_spec (mask (c * row_stride backend + b0)) 0) as [|Hne];
    [intros []|].
  intros [<- | [<- | [<- | []]]]; split; auto.
  right. right. eexists. reflexivity.
Qed.

Lemma in_row_writes backend mask y x1 x2 e :
  In e (row_writes backend mask y x1 x2) ->
  exists c b0, 0 <= c < 16 /\ x1 / 8 <= b0 <= x2 / 8
               /\ In e (pair_writes backend mask y c b0).
Proof.
  unfold row_writes. intros Hin.
  apply in_flat_map in Hin as (c & Hc & Hin).
  apply in_flat_map in Hin as (b0 & Hb & Hin).
  apply in_zrange in Hc. apply in_zrange in Hb.
  exists c, b0. repeat split; try lia. exact Hin.
Qed.

Lemma uploads_only_in trace e :
  uploads_only trace -> In e trace -> is_upload e = true.
Proof.
  unfold uploads_only. rewrite Forall_forall. intros H Hin. apply H, Hin.
Qed.

(** The new events of a row, where nothing wraps around. *)
Lemma flush_row_new_events x1 x2 y backend mask events backend' marked events'
    e :
  flush_row x1 x2 (backend, mask, events) y = (backend', marked, events') ->
  0 <= row_stride backend -> 0 <= x1 <= x2 ->
  0 <= y -> y * row_stride backend < 2 ^ 64 ->
  15 * row_stride backend + x2 / 8 < 2 ^ 32 ->
  In e events' ->
  In e events \/ is_upload e = true
  \/ In e (row_writes backend' marked y x1 x2).
Proof.
  intros Hrow Hs Hx Hy Hyrow Hfit Hin.
  apply flush_row_spec in Hrow as (Hdev & _ & _ & uploads & Hup & ->).
  destruct Hdev as (_ & Hstride & _).
  rewrite write_loops_row_writes in Hin by (rewrite ?Hstride; assumption).
  apply in_app_or in Hin as [Hin | Hin]; [left; exact Hin|].
  apply in_app_or in Hin as [Hin | Hin].
  - right. left. exact (uploads_only_in _ _ Hup Hin).
  - right. right. exact Hin.
Qed.

Lemma flush_rows_stores x1 x2 rows :
  forall backend mask events backend' mask' events' p v,
  fold_left (flush_row x1 x2) rows (backend, mask, events)
  = (backend', mask', events') ->
  0 <= row_stride backend -> 0 <= x1 <= x2 ->
  15 * row_stride backend + x2 / 8 < 2 ^ 32 ->
  (forall y, In y rows -> 0 <= y /\ y * row_stride backend < 2 ^ 64) ->
  In (fb_store p v) events' ->
  In (fb_store p v) events
  \/ exists y b0, In y rows /\ x1 / 8 <= b0 <= x2 / 8
                  /\ p = map_address (head backend)
                         + y * row_stride backend + b0.
Proof.
  induction rows as [|y rows IH];
    intros backend mask events backend' mask' events' p v;
    cbn [fold_left].
  - intros [= <- <- <-] _ _ _ _ Hin. left. exact Hin.
  - destruct (flush_row x1 x2 (backend, mask, events) y)
      as [[b1 m1] e1] eqn:E.
    intros Hfold Hs Hx Hfit Hrows Hin.
    pose proof (flush_row_spec _ _ _ _ _ _ _ _ _ E) as (Hdev & _).
    destruct Hdev as (_ & Hstride & _ & _ & _ & Hmap & _).
    destruct (Hrows y (or_introl eq_refl)) as (Hy & Hyrow).
    eapply IH in Hfold; try eassumption; rewrite ?Hstride; try assumption.
    + destruct Hfold as [Hin1 | (y' & b0 & Hy' & Hb & ->)].
      * eapply flush_row_new_events in Hin1; try eassumption.
        destruct Hin1 as [Hold | [Hup | Hw]]; [left; exact Hold|discriminate|].
        right. apply in_row_writes in Hw as (c & b0 & _ & Hb & Hw).
        apply in_pair_writes in Hw as (_ & [Hw | [Hw | (v' & Hw)]]);
          try discriminate.
        injection Hw as -> _. exists y, b0.
        split; [left; reflexivity|]. split; [exact Hb|].
        rewrite Hstride, Hmap. reflexivity.
      * right. exists y', b0. split; [right; exact Hy'|].
        split; [exact Hb|]. rewrite Hstride, Hmap. reflexivity.
    + intros y' Hy'. apply Hrows. right. exact Hy'.
Qed.

Lemma rectangle_fits_bounds stride r :
  rectangle_fits stride r ->
  u64 (rect_x r) = rect_x r /\ u64 (rect_y r) = rect_y r
  /\ u64 (rect_x r + rect_width r) = rect_x r + rect_width r
  /\ u64 (rect_y r + rect_height r) = rect_y r + rect_height r
  /\ 0 <= (rect_x r + rect_width r) / 8 <= stride
  /\ 15 * stride + (rect_x r + rect_width r) / 8 < 2 ^ 32.
Proof.
  intros (Hs & Hfit & Hx0 & Hy0 & Hw & Hh & Hedge & Hy2 & Hrows).
  assert (Hdiv : 0 <= (rect_x r + rect_width r) / 8 <= stride).
  { split; [apply Z.div_pos; lia|]. apply Z.div_le_upper_bound; lia. }
  unfold u64. rewrite !Z.mod_small by lia. repeat split; lia.
Qed.

(** X8.  The stores of a flushed rectangle that fits the row stride go to
    the rows of the rectangle and to byte offsets [x / 8] up to and
    including [(x + width) / 8]; when that last offset is still inside the
    row stride they stay inside the device rows of the rectangle. *)
Theorem flush_area_stores_in_rectangle backend r p v :
  rectangle_fits (row_stride backend) r ->
  In (fb_store p v) (snd (flush_area backend r)) ->
  (exists y b0,
     rect_y r <= y < rect_y r + rect_height r
     /\ rect_x r / 8 <= b0 <= (rect_x r + rect_width r) / 8
     /\ p = map_address (head backend) + y * row_stride backend + b0)
  /\ ((rect_x r + rect_width r) / 8 < row_stride backend ->
      map_address (head backend) + rect_y r * row_stride backend <= p
      < map_address (head backend)
        + (rect_y r + rect_height r) * row_stride backend).
Proof.
  intros Hfits Hin.
  pose proof (rectangle_fits_bounds _ _ Hfits)
    as (Ex & Ey & Ex2 & Ey2 & Hdiv & Hfit).
  destruct Hfits as (Hs & _ & Hx0 & Hy0 & Hw & Hh & Hedge & Hy2 & Hrows).
  unfold flush_area in Hin. rewrite Ex, Ey, Ex2, Ey2 in Hin.
  destruct (fold_left _ _ _) as [[b1 m1] e1] eqn:E. cbn [snd] in Hin.
  eapply flush_rows_stores in E; try eassumption; try lia.
  - destruct E as [[] | (y & b0 & Hy & Hb & ->)].
    apply in_zrange in Hy.
    assert (0 <= rect_x r / 8) by (apply Z.div_pos; lia).
    split.
    + exists y, b0. repeat split; lia.
    + intros Hinside. nia.
  - intros y Hy. apply in_zrange in Hy. split; [lia|nia].
Qed.

(** ** Rectangles without pixels *)

Lemma zrange_empty lo hi : hi <= lo -> zrange lo hi = [].
Proof.
  intros H. unfold zrange.
  replace (Z.to_nat (hi - lo)) with 0%nat by lia. reflexivity.
Qed.

Lemma flat_map_nothing {A : Type} (f : A -> list event) (l : list A) :
  (forall a, In a l -> f a = []) -> flat_map f l = [].
Proof.
  induction l as [|a l IH]; intros Hall; cbn [flat_map]; [reflexivity|].
  rewrite Hall by (left; reflexivity).
  apply IH. intros a' Hin. apply Hall. right. exact Hin.
Qed.

Lemma memset_zero_inside mask stride c b0 :
  0 <= stride -> stride * 16 < 2 ^ 32 -> 0 <= c < 16 -> 0 <= b0 < stride ->
  memset_zero mask (u32 (stride * 16)) (c * stride + b0) = 0.
Proof.
  intros Hs Hfit Hc Hb. unfold memset_zero, u32.
  rewrite (Z.mod_small (stride * 16)) by lia.
  destruct (Z.leb_spec 0 (c * stride + b0)); [|nia].
  destruct (Z.ltb_spec (c * stride + b0) (stride * 16)); [reflexivity|nia].
Qed.

Lemma flush_row_no_pixels x1 y backend mask events :
  0 <= row_stride backend -> row_stride backend * 16 < 2 ^ 32 ->
  0 <= x1 -> x1 / 8 < row_stride backend ->
  flush_row x1 x1 (backend, mask, events) y
  = (backend, memset_zero mask (u32 (row_stride backend * 16)), events).
Proof.
  intros Hs Hfit Hx Hb. unfold flush_row.
  rewrite (zrange_empty x1 x1) by lia. cbn [fold_left].
  rewrite write_planes_emit.
  rewrite flat_map_nothing; [rewrite app_nil_r; reflexivity|].
  intros c Hc. apply in_zrange in Hc.
  apply flat_map_nothing. intros b0 Hb0. apply in_zrange in Hb0.
  assert (0 <= x1 / 8) by (apply Z.div_pos; lia).
  unfold u32 in Hb0. rewrite (Z.mod_small (x1 / 8)) in Hb0 by lia.
  unfold write_byte, u32.
  rewrite (Z.mod_small (c * row_stride backend + b0)) by nia.
  fold (u32 (row_stride backend * 16)).
  rewrite memset_zero_inside by lia. reflexivity.
Qed.

(** X9.  A damaged rectangle without pixels, of zero width or of zero
    height, that starts inside the row stride is flushed without effect: no
    pixel is classified, no register is written and nothing is stored. *)
Theorem empty_rectangle_flushes_nothing backend r :
  rectangle_fits (row_stride backend) r ->
  rect_x r / 8 < row_stride backend ->
  rect_width r = 0 \/ rect_height r = 0 ->
  flush_area backend r = (backend, []).
Proof.
  intros Hfits Hstart Hempty.
  pose proof (rectangle_fits_bounds _ _ Hfits)
    as (Ex & Ey & Ex2 & Ey2 & _ & _).
  destruct Hfits as (Hs & Hfit & Hx0 & Hy0 & Hw & Hh & _).
  unfold flush_area. rewrite Ex, Ey, Ex2, Ey2.
  destruct Hempty as [Hwidth | Hheight].
  - rewrite Hwidth, Z.add_0_r.
    assert (Hrows : forall rows mask,
              fold_left (flush_row (rect_x r) (rect_x r)) rows
                        (backend, mask, [])
              = (backend,
                 fold_left
                   (fun m _ =>
                      memset_zero m (u32 (row_stride backend * 16)))
                   rows mask,
                 [])).
    { induction rows as [|y rows IH]; intros mask; cbn [fold_left];
        [reflexivity|].
      rewrite flush_row_no_pixels by assumption. apply IH. }
    rewrite Hrows. reflexivity.
  - rewrite Hheight, Z.add_0_r, zrange_empty by lia. reflexivity.
Qed.

(** ** Rectangles of one colour *)

Lemma classify_pixel_at backend y x :
  classify_pixel backend y x
  = (slot_of backend (pixel_at backend x y),
     with_head backend
       (snd (fst (argb32_pixel_value_to_color_index backend (head backend)
                    (pixel_at backend x y)))),
     snd (argb32_pixel_value_to_color_index backend (head backend)
            (pixel_at backend x y))).
Proof.
  unfold classify_pixel, slot_of, pixel_at.
  destruct (argb32_pixel_value_to_color_index backend (head backend) _)
    as [[i h'] issued]. reflexivity.
Qed.

Lemma solid_mark_pixels y v xs :
  forall backend mask events backend' marked events',
  fold_left (mark_pixel y) xs (backend, mask, events)
  = (backend', marked, events') ->
  reachable_head (head backend) ->
  (forall x, In x xs -> pixel_at backend x y = v) ->
  reachable_head (head backend')
  /\ slot_of backend' v = slot_of backend v
  /\ (forall x c, In (x, c) (row_slots backend y xs) ->
                  c = slot_of backend v).
Proof.
  induction xs as [|x xs IH];
    intros backend mask events backend' marked events';
    cbn [fold_left row_slots].
  - intros [= <- <- <-] Hreach _.
    split; [exact Hreach|]. split; [reflexivity | intros x c []].
  - unfold mark_pixel at 2. rewrite classify_pixel_at.
    intros Hfold Hreach Hsolid.
    rewrite (Hsolid x (or_introl eq_refl)) in *.
    pose proof (classify_stable backend
                  (with_head backend
                     (snd (fst (argb32_pixel_value_to_color_index
                                  backend (head backend) v))))
                  (head backend) v Hreach) as Hstable.
    cbv zeta in Hstable. unfold slot_of at 1 in Hfold.
    destruct (argb32_pixel_value_to_color_index backend (head backend) v)
      as [[i h'] issued] eqn:E.
    cbn [fst snd] in *.
    set (b1 := with_head backend h') in *.
    assert (Hslot0 : slot_of backend v = i).
    { unfold slot_of. rewrite E. reflexivity. }
    assert (Hreach1 : reachable_head (head b1)).
    { subst b1. cbn [with_head head].
      apply (f_equal (fun t => snd (fst t))) in E. cbn [fst snd] in E.
      rewrite <- E. constructor. exact Hreach. }
    assert (Hslot1 : slot_of b1 v = i).
    { unfold slot_of. subst b1. cbn [with_head head].
      rewrite Hstable. reflexivity. }
    assert (Hsolid1 : forall x', In x' xs -> pixel_at b1 x' y = v).
    { intros x' Hx'. rewrite <- (Hsolid x' (or_intror Hx')).
      unfold pixel_at. subst b1. cbn [with_head head].
      apply classify_frame in E as (-> & -> & _). reflexivity. }
    destruct (IH _ _ _ _ _ _ Hfold Hreach1 Hsolid1)
      as (Hreach' & Hslot' & Hslots).
    split; [exact Hreach'|]. split; [congruence|].
    intros x' c [Heq | Hin].
    + injection Heq as _ Hc. congruence.
    + rewrite Hslot0, <- Hslot1. apply (Hslots x'). exact Hin.
Qed.

(** A row of one colour selects the plane of that colour only. *)
Lemma solid_row x1 x2 y v backend mask events backend' marked events' c :
  flush_row x1 x2 (backend, mask, events) y = (backend', marked, events') ->
  reachable_head (head backend) ->
  0 <= row_stride backend -> row_stride backend * 16 < 2 ^ 32 ->
  0 <= x1 <= x2 -> x2 / 8 < row_stride backend ->
  0 <= y -> y * row_stride backend < 2 ^ 64 ->
  (forall x, x1 <= x < x2 -> pixel_at backend x y = v) ->
  reachable_head (head backend')
  /\ slot_of backend' v = slot_of backend v
  /\ (In (vga_set_reset c) events' ->
      In (vga_set_reset c) events \/ c = slot_of backend v).
Proof.
  intros Hrow Hreach Hs Hfit Hx Hedge Hy Hyrow Hsolid.
  assert (Hsolid' : forall x, In x (zrange x1 x2) -> pixel_at backend x y = v).
  { intros x Hx'. apply Hsolid, in_zrange, Hx'. }
  pose proof Hrow as Hnew.
  unfold flush_row in Hrow.
  destruct (fold_left (mark_pixel y) (zrange x1 x2) _)
    as [[b1 m1] e1] eqn:E.
  rewrite write_planes_emit in Hrow.
  apply triple_eq in Hrow as (<- & <- & <-).
  destruct (solid_mark_pixels _ _ _ _ _ _ _ _ _ E Hreach Hsolid')
    as (Hreach1 & Hslot1 & Hslots).
  apply mark_pixels_spec in E as (Hdev & _ & _ & Hmarked).
  destruct Hdev as (_ & Hstride & _).
  split; [exact Hreach1|]. split; [exact Hslot1|].
  intros Hin.
  eapply flush_row_new_events in Hnew; try eassumption; try nia.
  destruct Hnew as [Hold | [Hup | Hw]]; [left; exact Hold | discriminate|].
  right. apply in_row_writes in Hw as (c' & b0 & Hc' & Hb & Hw).
  apply in_pair_writes in Hw as (Hnonzero & [Hw | [Hw | (v' & Hw)]]);
    try discriminate.
  injection Hw as ->.
  destruct (Z.eq_dec c' (slot_of backend v)) as [|Hother]; [assumption|].
  exfalso. apply Hnonzero. rewrite Hmarked, Hstride.
  assert (0 <= x1 / 8) by (apply Z.div_pos; lia).
  rewrite mark_all_untouched; [apply memset_zero_inside; lia|].
  intros x cc Hslot.
  pose proof (row_slots_sound _ _ _ _ _ Hslot) as Hxin.
  apply in_zrange in Hxin.
  pose proof (row_slots_valid _ _ _ _ _
                (reachable_head_palette_size _ Hreach) Hslot) as Hcc.
  apply Hslots in Hslot. subst cc.
  assert (0 <= x / 8 <= x2 / 8).
  { split; [apply Z.div_pos; lia | apply Z.div_le_mono; lia]. }
  rewrite mask_offset_small by nia. nia.
Qed.

Lemma solid_rows x1 x2 v c rows :
  forall backend mask events backend' mask' events',
  fold_left (flush_row x1 x2) rows (backend, mask, events)
  = (backend', mask', events') ->
  reachable_head (head backend) ->
  0 <= row_stride backend -> row_stride backend * 16 < 2 ^ 32 ->
  0 <= x1 <= x2 -> x2 / 8 < row_stride backend ->
  (forall y, In y rows ->
     0 <= y /\ y * row_stride backend < 2 ^ 64
     /\ forall x, x1 <= x < x2 -> pixel_at backend x y = v) ->
  In (vga_set_reset c) events' ->
  In (vga_set_reset c) events \/ c = slot_of backend v.
Proof.
  induction rows as [|y rows IH];
    intros backend mask events backend' mask' events'; cbn [fold_left].
  - intros [= <- <- <-] _ _ _ _ _ _ Hin. left. exact Hin.
  - destruct (flush_row x1 x2 (backend, mask, events) y)
      as [[b1 m1] e1] eqn:E.
    intros Hfold Hreach Hs Hfit Hx Hedge Hrows Hin.
    destruct (Hrows y (or_introl eq_refl)) as (Hy & Hyrow & Hsolid).
    pose proof (flush_row_spec _ _ _ _ _ _ _ _ _ E) as (Hdev & _).
    destruct Hdev as (_ & Hstride & _ & Hbuf & Harea & _).
    destruct (solid_row _ _ _ _ _ _ _ _ _ _ c E Hreach Hs Hfit Hx Hedge
                Hy Hyrow Hsolid) as (Hreach1 & Hslot1 & Hnew).
    eapply IH in Hfold; try eassumption; rewrite ?Hstride; try assumption.
    + destruct Hfold as [Hin1 | ->]; [apply Hnew, Hin1 | right; exact Hslot1].
    + intros y' Hy'.
      destruct (Hrows y' (or_intror Hy')) as (Hy0 & Hyr & Hsol).
      split; [exact Hy0|]. split; [exact Hyr|].
      intros x Hx'. rewrite <- (Hsol x Hx').
      unfold pixel_at. rewrite Hbuf, Harea. reflexivity.
Qed.

(** X7.  When every pixel of a damaged rectangle has the same colour and
    the rectangle ends before the last byte of the row stride, its flush
    selects one plane only, the slot that colour is classified to: every
    plane select it issues names that slot. *)
Theorem solid_rectangle_selects_one_plane backend r v c :
  reachable_head (head backend) ->
  rectangle_fits (row_stride backend) r ->
  (rect_x r + rect_width r) / 8 < row_stride backend ->
  (forall x y, inside r x y -> pixel_at backend x y = v) ->
  In (vga_set_reset c) (snd (flush_area backend r)) ->
  c = slot_of backend v.
Proof.
  intros Hreach Hfits Hedge Hsolid Hin.
  pose proof (rectangle_fits_bounds _ _ Hfits)
    as (Ex & Ey & Ex2 & Ey2 & _ & _).
  destruct Hfits as (Hs & Hfit & Hx0 & Hy0 & Hw & Hh & _ & Hy2 & Hrows).
  unfold flush_area in Hin. rewrite Ex, Ey, Ex2, Ey2 in Hin.
  destruct (fold_left _ _ _) as [[b1 m1] e1] eqn:E. cbn [snd] in Hin.
  eapply solid_rows in E; try eassumption; try lia.
  - destruct E as [[] | ->]. reflexivity.
  - intros y Hy. apply in_zrange in Hy.
    split; [lia|]. split; [nia|].
    intros x Hx. apply Hsolid. unfold inside. lia.
Qed.

(** ** Device lifecycle: proofs *)

Lemma engine_events_map issued : engine_events (map engine issued) = issued.
Proof.
  unfold engine_events. induction issued as [|e issued IH]; cbn;
    [reflexivity|].
  f_equal. exact IH.
Qed.

Lemma engine_events_app t1 t2 :
  engine_events (t1 ++ t2) = engine_events t1 ++ engine_events t2.
Proof. unfold engine_events. apply flat_map_app. Qed.

(** A redraw on an active backend paints the whole head area and leaves no
    damage behind. *)
Lemma redraw_paints backend :
  is_active backend = true ->
  0 <= palette_size (head backend) <= 16 ->
  rectangle_fits (row_stride backend) (area (head backend)) ->
  paints_head_area backend (snd (ply_renderer_head_redraw backend))
  /\ is_active (fst (ply_renderer_head_redraw backend)) = true
  /\ updated_areas
       (pixel_buffer (head (fst (ply_renderer_head_redraw backend)))) = []
  /\ map_address (head (fst (ply_renderer_head_redraw backend)))
     = map_address (head backend)
  /\ row_stride (fst (ply_renderer_head_redraw backend))
     = row_stride backend
  /\ area (head (fst (ply_renderer_head_redraw backend)))
     = area (head backend).
Proof.
  intros Hactive Hsize Hfits. unfold ply_renderer_head_redraw.
  rewrite flush_head_active by exact Hactive.
  unfold ply_pixel_buffer_get_updated_areas, ply_region_add_rectangle.
  cbn [fst snd with_head with_pixel_buffer head pixel_buffer updated_areas].
  destruct (flush_areas _ (updated_areas (pixel_buffer (head backend))
                           ++ [area (head backend)]) [])
    as [b1 issued] eqn:E. cbn [fst snd].
  pose proof (flush_areas_spec _ _ _ _ _ E) as (Hdev & _).
  destruct Hdev as (_ & Hstride & Hact & _ & Harea & Hmap & _).
  cbn [with_head with_pixel_buffer head row_stride is_active area
       map_address pixel_buffer updated_areas] in *.
  split;
    [|split; [congruence|]; split; [reflexivity|]; split; [exact Hmap|];
      split; [exact Hstride | exact Harea]].
  intros x y Hinside.
  eapply flush_areas_covers in E as (c & m & v & Hc & Hbit & Hocc).
  - exists c, m, v. split; [exact Hc|]. split; [exact Hbit|].
    apply occurs_app_l, occurs_app_l. exact Hocc.
  - exact Hsize.
  - apply in_or_app. right. left. reflexivity.
  - exact Hfits.
  - exact Hinside.
Qed.

Lemma activate_mapped backend :
  map_address (head backend) <> MAP_FAILED ->
  activate backend = ply_renderer_head_redraw (with_is_active backend true).
Proof.
  intros Hmapped. unfold activate. cbn [with_is_active head].
  apply Z.eqb_neq in Hmapped. rewrite Hmapped. reflexivity.
Qed.

Lemma activate_unmapped backend :
  map_address (head backend) = MAP_FAILED ->
  activate backend = (with_is_active backend true, []).
Proof.
  intros Hunmapped. unfold activate. cbn [with_is_active head].
  rewrite Hunmapped, Z.eqb_refl. reflexivity.
Qed.

Lemma activate_paints backend :
  map_address (head backend) <> MAP_FAILED ->
  0 <= palette_size (head backend) <= 16 ->
  rectangle_fits (row_stride backend) (area (head backend)) ->
  paints_head_area backend (snd (activate backend))
  /\ is_active (fst (activate backend)) = true
  /\ updated_areas (pixel_buffer (head (fst (activate backend)))) = []
  /\ map_address (head (fst (activate backend)))
     = map_address (head backend)
  /\ row_stride (fst (activate backend)) = row_stride backend
  /\ area (head (fst (activate backend))) = area (head backend).
Proof.
  intros Hmapped Hsize Hfits. rewrite (activate_mapped _ Hmapped).
  apply (redraw_paints (with_is_active backend true)); try assumption.
  reflexivity.
Qed.

(** X12.  [query_device] accepts a device exactly when both queries succeed
    and report the planar VGA type, the 4-plane layout, a pseudo-colour
    visual and 4 bits per pixel.  It then takes over offset, resolution and
    row stride, sets the size to height times stride, and leaves a freshly
    initialised head with an empty palette; in every other case it returns
    false and the backend is untouched. *)
Theorem query_device_accepts_vga16_only variable_screen_info
    fixed_screen_info fresh backend :
  0 <= device_fd backend ->
  let accepted v f :=
    variable_screen_info = Some v /\ fixed_screen_info = Some f
    /\ fb_type f = FB_TYPE_VGA_PLANES
    /\ type_aux f = FB_AUX_VGA_PLANES_VGA4
    /\ visual f = FB_VISUAL_PSEUDOCOLOR
    /\ bits_per_pixel v = 4 in
  match query_device variable_screen_info fixed_screen_info fresh backend with
  | Some (true, backend') =>
      exists v f,
        accepted v f
        /\ area (head backend')
           = mk_rectangle (xoffset v) (yoffset v) (xres v) (yres v)
        /\ row_stride backend' = line_length f
        /\ size (head backend') = u64 (yres v * line_length f)
        /\ pixel_buffer (head backend') = fresh
        /\ palette_size (head backend') = 0
        /\ reachable_head (head backend')
        /\ device_fd backend' = device_fd backend
        /\ is_active backend' = is_active backend
        /\ map_address (head backend') = map_address (head backend)
  | Some (false, backend') =>
      backend' = backend /\ forall v f, ~ accepted v f
  | None => False
  end.
Proof.
  intros Hfd accepted. unfold query_device.
  replace (device_fd backend <? 0) with false
    by (symmetry; apply Z.ltb_ge; lia).
  destruct variable_screen_info as [v|];
    [|split; [reflexivity | intros v f (H & _); discriminate]].
  destruct fixed_screen_info as [f|];
    [|split; [reflexivity | intros v' f (_ & H & _); discriminate]].
  destruct (Z.eqb_spec (fb_type f) FB_TYPE_VGA_PLANES) as [Ht|Ht];
    cbn [negb orb];
    [|split; [reflexivity | intros v' f' (_ & [= <-] & H & _); auto]].
  destruct (Z.eqb_spec (type_aux f) FB_AUX_VGA_PLANES_VGA4) as [Ha|Ha];
    cbn [negb orb];
    [|split; [reflexivity | intros v' f' (_ & [= <-] & _ & H & _); auto]].
  destruct (Z.eqb_spec (visual f) FB_VISUAL_PSEUDOCOLOR) as [Hv|Hv];
    cbn [negb orb];
    [|split; [reflexivity | intros v' f' (_ & [= <-] & _ & _ & H & _); auto]].
  destruct (Z.eqb_spec (bits_per_pixel v) 4) as [Hb|Hb];
    cbn [negb orb];
    [|split; [reflexivity | intros v' f' ([= <-] & _ & _ & _ & _ & H); auto]].
  exists v, f. unfold accepted.
  cbn [with_row_stride with_head head row_stride device_fd is_active
       rect_height].
  repeat split; try assumption; try reflexivity.
  constructor.
Qed.

(** X13.  Start-up: on a device that [query_device] accepts and whose
    screen fits its row stride, a successful [map_to_device] either, with
    the terminal already active, activates and paints the whole screen at
    once from the empty palette, or, with the terminal not active, only asks
    for the console and issues nothing to the engine; the console-change
    notification that follows then paints the whole screen. *)
Theorem startup_paints_whole_screen v f fresh backend
    ioperm_result mmap_result :
  0 <= device_fd backend ->
  fb_type f = FB_TYPE_VGA_PLANES ->
  type_aux f = FB_AUX_VGA_PLANES_VGA4 ->
  visual f = FB_VISUAL_PSEUDOCOLOR ->
  bits_per_pixel v = 4 ->
  rectangle_fits (line_length f)
    (mk_rectangle (xoffset v) (yoffset v) (xres v) (yres v)) ->
  0 < yres v * line_length f ->
  0 <= ioperm_result -> mmap_result <> MAP_FAILED ->
  exists queried,
    query_device (Some v) (Some f) fresh backend = Some (true, queried)
    /\ palette_size (head queried) = 0
    /\ (exists painted events,
          map_to_device ioperm_result mmap_result true queried
          = Some (true, painted, events)
          /\ is_active painted = true
          /\ map_address (head painted) = mmap_result
          /\ updated_areas (pixel_buffer (head painted)) = []
          /\ paints_head_area painted (engine_events events))
    /\ (exists mapped,
          map_to_device ioperm_result mmap_result false queried
          = Some (true, mapped,
                  [sys_ioperm;
                   sys_mmap (yres v * line_length f) (device_fd backend);
                   ply_terminal_activate_vt])
          /\ is_active mapped = is_active backend
          /\ map_address (head mapped) = mmap_result
          /\ paints_head_area mapped
               (snd (on_active_vt_changed true mapped))).
Proof.
  intros Hfd Ht Ha Hv Hb Hfits Hsize Hio Hmm.
  unfold query_device.
  replace (device_fd backend <? 0) with false
    by (symmetry; apply Z.ltb_ge; lia).
  rewrite Ht, Ha, Hv, Hb, !Z.eqb_refl. cbn [negb orb rect_height].
  eexists. split; [reflexivity|].
  set (queried :=
         with_row_stride
           (with_head backend
              (initialize_head fresh
                 (with_geometry (head backend)
                    (mk_rectangle (xoffset v) (yoffset v) (xres v) (yres v))
                    (u64 (yres v * line_length f)))))
           (line_length f)).
  assert (Hu64 : u64 (yres v * line_length f) = yres v * line_length f).
  { destruct Hfits as (Hs & _ & _ & Hy0 & _ & Hh & _ & _ & Hrows).
    cbn [rect_y rect_height] in *. unfold u64. apply Z.mod_small. nia. }
  split; [reflexivity|].
  set (mapped :=
         with_head queried (with_map_address (head queried) mmap_result)).
  assert (Hmapped : map_address (head mapped) <> MAP_FAILED) by exact Hmm.
  assert (Hpal : 0 <= palette_size (head mapped) <= 16)
    by (cbn; lia).
  assert (Hgeo : rectangle_fits (row_stride mapped) (area (head mapped)))
    by exact Hfits.
  assert (Hmap : forall active,
            map_to_device ioperm_result mmap_result active queried
            = if active then
                Some (true, fst (activate mapped),
                      [sys_ioperm;
                       sys_mmap (yres v * line_length f) (device_fd backend)]
                      ++ map engine (snd (activate mapped)))
              else
                Some (true, mapped,
                      [sys_ioperm;
                       sys_mmap (yres v * line_length f) (device_fd backend);
                       ply_terminal_activate_vt])).
  { intros active. unfold map_to_device.
    change (device_fd queried) with (device_fd backend).
    change (size (head queried)) with (u64 (yres v * line_length f)).
    rewrite Hu64.
    replace (device_fd backend <? 0) with false
      by (symmetry; apply Z.ltb_ge; lia).
    replace (yres v * line_length f <=? 0) with false
      by (symmetry; apply Z.leb_gt; lia).
    replace (ioperm_result <? 0) with false
      by (symmetry; apply Z.ltb_ge; lia).
    replace (mmap_result =? MAP_FAILED) with false
      by (symmetry; apply Z.eqb_neq; exact Hmm).
    fold mapped. destruct active; [|reflexivity].
    destruct (activate mapped) as [b2 issued]. reflexivity. }
  destruct (activate_paints mapped Hmapped Hpal Hgeo)
    as (Hpaint & Hact & Hregion & Haddr & Hstride & Harea).
  split.
  - exists (fst (activate mapped)). eexists.
    split; [apply (Hmap true)|].
    split; [exact Hact|]. split; [exact Haddr|]. split; [exact Hregion|].
    rewrite engine_events_app, engine_events_map. cbn [engine_events flat_map app].
    unfold paints_head_area in *. rewrite Haddr, Hstride, Harea.
    exact Hpaint.
  - exists mapped. split; [apply (Hmap false)|].
    split; [reflexivity|]. split; [reflexivity|].
    unfold on_active_vt_changed. exact Hpaint.
Qed.

(** X14.  When [map_to_device] fails, because the register permission is
    refused or because the mapping fails, on a backend that was not mapped
    before, it returns false without one event of the flush engine, the head
    stays unmapped and the activation flag is as it was; a console-change
    notification after that only sets the flag and issues nothing. *)
Theorem failed_mapping_stays_silent ioperm_result mmap_result
    terminal_is_active backend :
  0 <= device_fd backend -> 0 < size (head backend) ->
  map_address (head backend) = MAP_FAILED ->
  ioperm_result < 0 \/ mmap_result = MAP_FAILED ->
  exists backend' events,
    map_to_device ioperm_result mmap_result terminal_is_active backend
    = Some (false, backend', events)
    /\ engine_events events = []
    /\ map_address (head backend') = MAP_FAILED
    /\ is_active backend' = is_active backend
    /\ palette_size (head backend') = palette_size (head backend)
    /\ on_active_vt_changed true backend'
       = (with_is_active backend' true, []).
Proof.
  intros Hfd Hsize Hunmapped Hfail. unfold map_to_device.
  replace (device_fd backend <? 0) with false
    by (symmetry; apply Z.ltb_ge; lia).
  replace (size (head backend) <=? 0) with false
    by (symmetry; apply Z.leb_gt; lia).
  destruct (Z.ltb_spec ioperm_result 0) as [Hio|Hio].
  - exists backend. eexists. split; [reflexivity|].
    split; [reflexivity|]. split; [exact Hunmapped|].
    split; [reflexivity|]. split; [reflexivity|].
    unfold on_active_vt_changed. apply activate_unmapped, Hunmapped.
  - destruct Hfail as [Hio' | ->]; [lia|]. rewrite Z.eqb_refl.
    eexists. eexists. split; [reflexivity|].
    split; [reflexivity|]. split; [reflexivity|].
    split; [reflexivity|]. split; [reflexivity|].
    unfold on_active_vt_changed. apply activate_unmapped. reflexivity.
Qed.

(** X15.  [unmap_from_device] releases a mapping once, with the address and
    the size that were mapped, and marks the head unmapped; on an unmapped
    head it does nothing, so a second call is without effect.  Palette,
    pixel buffer and activation flag are kept, and an activation after it
    issues nothing. *)
Theorem unmap_releases_once backend :
  let unmapped := fst (unmap_from_device backend) in
  map_address (head unmapped) = MAP_FAILED
  /\ snd (unmap_from_device backend)
     = (if map_address (head backend) =? MAP_FAILED then []
        else [sys_munmap (map_address (head backend))
                         (size (head backend))])
  /\ unmap_from_device unmapped = (unmapped, [])
  /\ is_active unmapped = is_active backend
  /\ pixel_buffer (head unmapped) = pixel_buffer (head backend)
  /\ cmap_of (head unmapped) = cmap_of (head backend)
  /\ activate unmapped = (with_is_active unmapped true, []).
Proof.
  intros unmapped. subst unmapped. unfold unmap_from_device.
  destruct (Z.eqb_spec (map_address (head backend)) MAP_FAILED) as [E|E];
    cbn [fst snd].
  - split; [exact E|]. split; [reflexivity|].
    split; [rewrite E, Z.eqb_refl; reflexivity|].
    split; [reflexivity|]. split; [reflexivity|]. split; [reflexivity|].
    apply activate_unmapped, E.
  - split; [reflexivity|]. split; [reflexivity|].
    split; [reflexivity|].
    split; [reflexivity|]. split; [reflexivity|]. split; [reflexivity|].
    apply activate_unmapped. reflexivity.
Qed.

(** X16.  A console switch away and back: after the notification that the
    terminal is no longer active a flush issues nothing and keeps the
    damage, and the head with its palette is as before; the notification
    that the terminal is active again, on a mapped head, paints the whole
    head area and leaves no damage. *)
Theorem console_switch_round_trip backend :
  map_address (head backend) <> MAP_FAILED ->
  reachable_head (head backend) ->
  rectangle_fits (row_stride backend) (area (head backend)) ->
  let away := fst (on_active_vt_changed false backend) in
  let back := on_active_vt_changed true away in
  snd (on_active_vt_changed false backend) = []
  /\ head away = head backend
  /\ flush_head away = (away, [])
  /\ paints_head_area backend (snd back)
  /\ is_active (fst back) = true
  /\ updated_areas (pixel_buffer (head (fst back))) = [].
Proof.
  intros Hmapped Hreach Hfits away back. subst back away.
  unfold on_active_vt_changed, deactivate. cbn [fst snd].
  split; [reflexivity|]. split; [reflexivity|].
  split; [reflexivity|].
  pose proof (reachable_head_palette_size _ Hreach) as Hsize.
  destruct (activate_paints (with_is_active backend false))
    as (Hpaint & Hact & Hregion & _); try assumption.
  split; [exact Hpaint|]. split; [exact Hact | exact Hregion].
Qed.

End Engine.

(** ** The theorems at the sample inputs *)

(** At level 6 the colour (64, 64, 128) is found in slot 7 of the full
    palette; the colour (0, 0, 64) has no slot at level 6 and is found in
    slot 0 at level 7. *)
Lemma classifier_returns_first_match_witness :
  argb32_pixel_value_to_color_index (sample_backend true []) full_head
    4210816 = (7, full_head, [])
  /\ argb32_pixel_value_to_color_index (sample_backend true []) full_head
       64 = (0, full_head, []).
Proof.
  split.
  - apply classifier_returns_first_match. left.
    apply first_match_check. vm_compute. reflexivity.
  - apply classifier_returns_first_match. right.
    split; [apply no_match_check; vm_compute; reflexivity|].
    split; [vm_compute; discriminate|].
    apply first_match_check. vm_compute. reflexivity.
Defined.

(** With the full sample palette, the colour (0, 128, 0) matches no slot at
    either level and falls back to slot 15. *)
Lemma full_palette_falls_back_to_last_slot_witness :
  argb32_pixel_value_to_color_index (sample_backend true []) full_head 32768
  = (palette_size full_head - 1, full_head, [])
  /\ palette_size full_head - 1 = 15.
Proof.
  apply full_palette_falls_back_to_last_slot.
  - vm_compute. reflexivity.
  - apply no_match_check. vm_compute. reflexivity.
  - apply no_match_check. vm_compute. reflexivity.
Defined.

(** The full sample palette is reachable, and the fallback index is one of
    its slots. *)
Lemma returned_index_is_valid_slot_witness :
  reachable_head full_head
  /\ 0 <= fst (fst (argb32_pixel_value_to_color_index
                      (sample_backend true []) full_head 32768))
       < palette_size
           (snd (fst (argb32_pixel_value_to_color_index
                        (sample_backend true []) full_head 32768))).
Proof.
  assert (Hreach : reachable_head full_head).
  { unfold full_head, sample_head.
    apply classify_all_reachable. constructor. }
  split; [exact Hreach|].
  exact (proj1 (returned_index_is_valid_slot
                  (sample_backend true []) full_head 32768 Hreach)).
Defined.


(** The same row: what it issues is colour-map uploads followed by the
    writes of its nonzero mask bytes. *)
Lemma write_loops_read_linear_mask_witness :
  exists uploads,
    uploads_only uploads
    /\ snd (flush_row (fun _ => 0) 0 16
              (sample_backend true [], fun _ => 255, []) 0)
       = [] ++ uploads
         ++ row_writes (fun _ => 0)
              (fst (fst (flush_row (fun _ => 0) 0 16
                           (sample_backend true [], fun _ => 255, []) 0)))
              (snd (fst (flush_row (fun _ => 0) 0 16
                           (sample_backend true [], fun _ => 255, []) 0)))
              0 0 16.
Proof.
  refine (proj1 (write_loops_read_linear_mask (fun _ => 0) (fun _ => 0)
                   (sample_backend true []) (fun _ => 255) [] 0 0 16
                   _ _ _ _ _ _)); cbn; try reflexivity; lia.
Defined.

(** The sample head with its whole area damaged: flushed once, a second
    flush finds nothing to write. *)
Lemma second_flush_writes_no_plane_witness :
  updated_areas
    (pixel_buffer
       (head (fst (flush_head (fun _ => 0) (fun _ => 0)
                     (sample_backend true [mk_rectangle 0 0 16 1])))))
  = [].
Proof.
  refine (proj1 (second_flush_writes_no_plane (fun _ => 0) (fun _ => 0)
                   (sample_backend true [mk_rectangle 0 0 16 1]) _)).
  reflexivity.
Defined.

(** The inactive sample backend with its whole area damaged. *)
Lemma inactive_flush_is_noop_witness :
  flush_head (fun _ => 0) (fun _ => 0)
    (sample_backend false [mk_rectangle 0 0 16 1])
  = (sample_backend false [mk_rectangle 0 0 16 1], []).
Proof.
  apply inactive_flush_is_noop. reflexivity.
Defined.

(** C8 as stated fails: the first active flush of a freshly initialised head
    on the open sample device has an empty palette and uploads nothing
    before its rectangles; with nothing damaged it issues the opening
    sequence only. *)
Lemma active_flush_without_upload :
  is_active (sample_backend true []) = true
  /\ 0 <= device_fd (sample_backend true [])
  /\ snd (flush_head (fun _ => 0) (fun _ => 0) (sample_backend true []))
     = reset_sequence
  /\ snd (flush_head (fun _ => 0) (fun _ => 0)
            (sample_backend true [mk_rectangle 0 0 16 1]))
     = reset_sequence
       ++ snd (flush_areas (fun _ => 0) (fun _ => 0)
                 (sample_backend true [mk_rectangle 0 0 16 1])
                 [mk_rectangle 0 0 16 1] []).
Proof.
  split; [reflexivity|]. split; [vm_compute; discriminate|].
  split; vm_compute; reflexivity.
Defined.

(** The full sample palette on the open device: the upload follows the
    opening sequence. *)
Lemma active_flush_uploads_palette_witness :
  let backend := mk_backend 3 full_head 2 true in
  let h := head backend in
  let upload :=
    if (device_fd backend <? 0) || (palette_size h =? 0) then []
    else [ioctl_FBIOPUTCMAP (device_fd backend)
            {| cmap_start := 0; cmap_len := palette_size h;
               cmap_red := red h; cmap_green := green h;
               cmap_blue := blue h |}] in
  snd (flush_head (fun _ => 0) (fun _ => 0) backend)
  = reset_sequence ++ upload
    ++ snd (flush_areas (fun _ => 0) (fun _ => 0) backend
              (ply_region_get_sorted_rectangle_list
                 (ply_pixel_buffer_get_updated_areas (pixel_buffer h))) []).
Proof.
  intros backend. apply active_flush_uploads_palette. reflexivity.
Defined.

(** C9 as stated fails: activating the backend before its memory is mapped
    sets the flag, leaves the partial damage as it is and issues nothing. *)
Lemma unmapped_activation_does_not_repaint :
  is_active (unmapped_backend [mk_rectangle 0 0 4 1]) = false
  /\ on_active_vt_changed (fun _ => 0) (fun _ => 0) true
       (unmapped_backend [mk_rectangle 0 0 4 1])
     = activate (fun _ => 0) (fun _ => 0)
         (unmapped_backend [mk_rectangle 0 0 4 1])
  /\ is_active (fst (activate (fun _ => 0) (fun _ => 0)
                       (unmapped_backend [mk_rectangle 0 0 4 1]))) = true
  /\ snd (activate (fun _ => 0) (fun _ => 0)
            (unmapped_backend [mk_rectangle 0 0 4 1])) = []
  /\ updated_areas
       (pixel_buffer
          (head (fst (activate (fun _ => 0) (fun _ => 0)
                        (unmapped_backend [mk_rectangle 0 0 4 1])))))
     = [mk_rectangle 0 0 4 1].
Proof.
  repeat split.
Defined.

(** The mapped sample backend, inactive, with partial damage: activation
    repaints the whole head area, the pixel at (9, 0) included. *)
Lemma activation_repaints_head_area_witness :
  exists c m v,
    0 <= c < 16 /\ Z.testbit m (7 - 9 mod 8) = true
    /\ occurs [vga_set_reset c; vga_bit_mask m;
               fb_store (4096 + 0 * 2 + 9 / 8) v]
              (snd (activate (fun _ => 0) (fun _ => 0)
                      (sample_backend false [mk_rectangle 0 0 4 1]))).
Proof.
  refine (proj2 (proj2 (proj2 (proj2 (proj2
           (activation_repaints_head_area (fun _ => 0) (fun _ => 0)
              (sample_backend false [mk_rectangle 0 0 4 1]) _ _ _))))) 9 0 _).
  - unfold MAP_FAILED. cbn. lia.
  - cbn. lia.
  - unfold rectangle_fits. cbn. lia.
  - unfold inside. cbn. lia.
Defined.

(** The last byte offset of the write loops, [x2 / 8], is one past the row
    when the rectangle ends at the last pixel of the stride: in the sample
    row (16 pixels, two bytes per row) plane 0 is written a second time,
    with the mask byte of plane 1 and at the address two bytes after the
    start of the row. *)
Example row_end_reads_next_plane :
  firstn 6 (filter is_plane_write
              (snd (flush_row (fun _ => 0) 0 16
                      (sample_backend true [], fun _ => 0, []) 0)))
  = [vga_set_reset 0; vga_bit_mask 128; fb_store 4096 1;
     vga_set_reset 0; vga_bit_mask 64; fb_store 4098 1].
Proof. vm_compute. reflexivity. Qed.

(** C5, at a rectangle as wide as the row.  The sample device has two bytes
    per row and its palette is full; all sixteen pixels of the row have the
    colour 0x008000 and are classified to slot 15, so in the mask of the row
    only the two bytes of plane 15 are set and both bytes of plane 14 are
    zero.  The write loops run up to byte offset [x2 / 8 = 2], one past the
    row: there the pair of plane 14 reads the cell [14 * 2 + 2], which is
    the first byte of plane 15, and the flush selects plane 14, sets the bit
    mask 255 and stores at address 4098, past the two mapped bytes, although
    no pixel was classified to slot 14. *)
Theorem full_width_row_writes_without_mask_byte :
  let backend := green_backend [mk_rectangle 0 0 16 1] in
  let row := flush_row (fun _ => 0) 0 16 (backend, fun _ => 0, []) 0 in
  let marked := snd (fst row) in
  is_active backend = true
  /\ pixel_slots backend (head backend) 0 (zrange 0 16)
     = map (fun x => (x, 15)) (zrange 0 16)
  /\ map marked (zrange 0 32) = repeat 0 30 ++ [255; 255]
  /\ snd (flush_head (fun _ => 0) (fun _ => 0) backend)
     = reset_sequence ++ set_palette backend (head backend)
       ++ [vga_set_reset 14; vga_bit_mask 255; fb_store 4098 1;
           vga_set_reset 15; vga_bit_mask 255; fb_store 4096 1;
           vga_set_reset 15; vga_bit_mask 255; fb_store 4097 1].
Proof. cbv zeta. repeat split; vm_compute; reflexivity. Qed.

(** ** The further properties at the sample inputs *)

Lemma full_head_reachable : reachable_head full_head.
Proof.
  unfold full_head, sample_head. apply classify_all_reachable. constructor.
Qed.

Lemma one_slot_head_reachable : reachable_head one_slot_head.
Proof. unfold one_slot_head, sample_head. constructor. constructor. Qed.

(** The colour 0x008000 on the fresh sample head: the first call allocates
    slot 0, the second finds it. *)
Lemma classification_is_stable_witness :
  let first :=
    argb32_pixel_value_to_color_index (sample_backend true [])
      (sample_head []) 32768 in
  argb32_pixel_value_to_color_index (sample_backend false [])
    (snd (fst first)) 32768
  = (fst (fst first), snd (fst first), []).
Proof.
  apply classification_is_stable. unfold sample_head. constructor.
Defined.

(** Black on the head with one slot in use is given slot 1; slot 0 keeps its
    colour. *)
Lemma classification_keeps_slots_witness :
  slot_color
    (snd (fst (argb32_pixel_value_to_color_index (sample_backend true [])
                 one_slot_head 0))) 0
  = slot_color one_slot_head 0.
Proof.
  apply classification_keeps_slots.
  assert (palette_size one_slot_head = 1) as -> by (vm_compute; reflexivity).
  lia.
Defined.

(** Slots 0 and 1 of the full sample palette. *)
Lemma palette_slots_in_distinct_buckets_witness :
  ~ same_bucket full_head 0 1.
Proof.
  apply palette_slots_in_distinct_buckets;
    [exact full_head_reachable | lia | vm_compute; reflexivity].
Defined.

(** The full sample palette. *)
Lemma reachable_palette_shape_witness :
  length (red full_head) = 16%nat /\ length (green full_head) = 16%nat
  /\ length (blue full_head) = 16%nat
  /\ 0 <= palette_size full_head <= 16.
Proof.
  destruct (reachable_palette_shape full_head full_head_reachable)
    as (Hr & Hg & Hb & Hsize & _).
  exact (conj Hr (conj Hg (conj Hb Hsize))).
Defined.

(** The colour 0x008000 on the full sample palette. *)
Lemma returned_slot_agrees_in_top_bits_witness :
  let r := Z.land (Z.shiftr 32768 16) 255 in
  let g := Z.land (Z.shiftr 32768 8) 255 in
  let b := Z.land 32768 255 in
  let result :=
    argb32_pixel_value_to_color_index (sample_backend true []) full_head
      32768 in
  let index := fst (fst result) in
  let h' := snd (fst result) in
  channels_equal h' r g b 6 index
  \/ (palette_size full_head = 16 /\ no_match full_head r g b 6
      /\ channels_equal h' r g b 7 index)
  \/ (palette_size full_head = 16 /\ no_match full_head r g b 7
      /\ index = 15 /\ h' = full_head).
Proof.
  apply returned_slot_agrees_in_top_bits. exact full_head_reachable.
Defined.

(** The first flush of the sample device, with its whole area damaged. *)
Lemma flush_leaves_color_map_in_sync_witness :
  let result :=
    flush_head (fun _ => 0) (fun _ => 0)
      (sample_backend true [mk_rectangle 0 0 16 1]) in
  let h' := head (fst result) in
  (palette_size h' = 0 /\ last_upload (snd result) = None)
  \/ last_upload (snd result) = Some (cmap_of h').
Proof.
  apply flush_leaves_color_map_in_sync.
  - reflexivity.
  - cbn. lia.
  - cbn [head sample_backend]. unfold sample_head. constructor.
Defined.

Lemma flush_keeps_device_and_slots_witness :
  let backend' :=
    fst (flush_head (fun _ => 0) (fun _ => 0)
           (sample_backend true [mk_rectangle 0 0 16 1])) in
  device_fd backend' = 3 /\ row_stride backend' = 2
  /\ is_active backend' = true.
Proof.
  destruct (flush_keeps_device_and_slots (fun _ => 0) (fun _ => 0)
              (sample_backend true [mk_rectangle 0 0 16 1]))
    as (Hfd & Hstride & Hactive & _).
  - cbn [head sample_backend]. unfold sample_head. constructor.
  - exact (conj Hfd (conj Hstride Hactive)).
Defined.

(** The upload at the start of a flush of the full sample palette. *)
Lemma flush_uploads_whole_palettes_witness :
  3 = device_fd (green_backend []) /\ 0 <= 3
  /\ cmap_start (cmap_of full_head) = 0
  /\ 1 <= cmap_len (cmap_of full_head) <= 16
  /\ length (cmap_red (cmap_of full_head)) = 16%nat
  /\ length (cmap_green (cmap_of full_head)) = 16%nat
  /\ length (cmap_blue (cmap_of full_head)) = 16%nat.
Proof.
  apply (flush_uploads_whole_palettes (fun _ => 0) (fun _ => 0)).
  - cbn [head green_backend]. apply reachable_with_pixel_buffer.
    exact full_head_reachable.
  - vm_compute. do 6 right. left. reflexivity.
Defined.

(** The left half of the sample row: its stores stay in the row. *)
Lemma flush_area_stores_in_rectangle_witness :
  4096 + 0 * 2 <= 4096 < 4096 + (0 + 1) * 2.
Proof.
  refine (proj2 (flush_area_stores_in_rectangle (fun _ => 0) (fun _ => 0)
                   (sample_backend true []) (mk_rectangle 0 0 8 1) 4096 1
                   _ _) _).
  - unfold rectangle_fits. cbn. lia.
  - vm_compute. repeat (first [left; reflexivity | right]).
  - cbn. lia.
Defined.

(** A rectangle of width 0 in the sample row. *)
Lemma empty_rectangle_flushes_nothing_witness :
  flush_area (fun _ => 0) (fun _ => 0) (sample_backend true [])
    (mk_rectangle 4 0 0 1)
  = (sample_backend true [], []).
Proof.
  apply empty_rectangle_flushes_nothing.
  - unfold rectangle_fits. cbn. lia.
  - cbn. lia.
  - left. reflexivity.
Defined.

(** The left half of the row of pixels of the colour 0x008000, on the full
    palette: plane 15 is the one selected. *)
Lemma solid_rectangle_selects_one_plane_witness :
  15 = slot_of (green_backend []) 32768.
Proof.
  apply (solid_rectangle_selects_one_plane (fun _ => 0) (fun _ => 0)
           (green_backend []) (mk_rectangle 0 0 8 1)).
  - cbn [head green_backend]. apply reachable_with_pixel_buffer.
    exact full_head_reachable.
  - unfold rectangle_fits. cbn. lia.
  - cbn. lia.
  - intros x y _. reflexivity.
  - vm_compute. left. reflexivity.
Defined.

(** The sample device answers both queries with the planar VGA format. *)
Lemma query_device_accepts_vga16_only_witness :
  exists queried,
    query_device 4 0 3 (Some sample_var_info) (Some sample_fix_info)
      (sample_buffer []) (unmapped_backend [])
    = Some (true, queried)
    /\ row_stride queried = 2 /\ palette_size (head queried) = 0.
Proof.
  pose proof (query_device_accepts_vga16_only 4 0 3
                (Some sample_var_info) (Some sample_fix_info)
                (sample_buffer []) (unmapped_backend [])) as W.
  cbv zeta in W.
  destruct (query_device 4 0 3 (Some sample_var_info) (Some sample_fix_info)
              (sample_buffer []) (unmapped_backend []))
    as [[[|] queried]|] eqn:E.
  - destruct W as (v & f & Haccepted & _ & Hstride & _ & _ & Hsize & _);
      [cbn; lia|].
    exists queried. split; [reflexivity|].
    destruct Haccepted as (_ & Hf & _). injection Hf as <-.
    split; [exact Hstride | exact Hsize].
  - vm_compute in E. discriminate E.
  - vm_compute in E. discriminate E.
Defined.

(** Start-up of the sample device: queried, then mapped at 4096. *)
Lemma startup_paints_whole_screen_witness :
  exists queried,
    query_device 4 0 3 (Some sample_var_info) (Some sample_fix_info)
      (sample_buffer []) (unmapped_backend [])
    = Some (true, queried)
    /\ palette_size (head queried) = 0
    /\ exists mapped,
         map_to_device (fun _ => 0) (fun _ => 0) 0 4096 false queried
         = Some (true, mapped,
                 [sys_ioperm; sys_mmap (1 * 2) 3; ply_terminal_activate_vt])
         /\ map_address (head mapped) = 4096.
Proof.
  destruct (startup_paints_whole_screen (fun _ => 0) (fun _ => 0) 4 0 3
              sample_var_info sample_fix_info (sample_buffer [])
              (unmapped_backend []) 0 4096)
    as (queried & Hquery & Hsize & _ & mapped & Hmap & _ & Haddress & _).
  - cbn. lia.
  - reflexivity.
  - reflexivity.
  - reflexivity.
  - reflexivity.
  - unfold rectangle_fits. cbn. lia.
  - cbn. lia.
  - lia.
  - unfold MAP_FAILED. lia.
  - exists queried. split; [exact Hquery|]. split; [exact Hsize|].
    exists mapped. split; [exact Hmap | exact Haddress].
Defined.

(** The register permission is refused on the sample device. *)
Lemma failed_mapping_stays_silent_witness :
  exists backend' events,
    map_to_device (fun _ => 0) (fun _ => 0) (-1) 4096 true
      (unmapped_backend [])
    = Some (false, backend', events)
    /\ engine_events events = []
    /\ map_address (head backend') = MAP_FAILED
    /\ is_active backend' = is_active (unmapped_backend [])
    /\ palette_size (head backend')
       = palette_size (head (unmapped_backend []))
    /\ on_active_vt_changed (fun _ => 0) (fun _ => 0) true backend'
       = (with_is_active backend' true, []).
Proof.
  apply failed_mapping_stays_silent.
  - cbn. lia.
  - cbn. lia.
  - reflexivity.
  - left. lia.
Defined.

(** The mapped sample device over a console switch away and back. *)
Lemma console_switch_round_trip_witness :
  let away :=
    fst (on_active_vt_changed (fun _ => 0) (fun _ => 0) false
           (sample_backend true [mk_rectangle 0 0 4 1])) in
  let back := on_active_vt_changed (fun _ => 0) (fun _ => 0) true away in
  snd (on_active_vt_changed (fun _ => 0) (fun _ => 0) false
         (sample_backend true [mk_rectangle 0 0 4 1])) = []
  /\ flush_head (fun _ => 0) (fun _ => 0) away = (away, [])
  /\ is_active (fst back) = true
  /\ updated_areas (pixel_buffer (head (fst back))) = [].
Proof.
  destruct (console_switch_round_trip (fun _ => 0) (fun _ => 0)
              (sample_backend true [mk_rectangle 0 0 4 1]))
    as (Hquiet & _ & Hflush & _ & Hactive & Hdamage).
  - unfold MAP_FAILED. cbn. lia.
  - cbn [head sample_backend]. unfold sample_head. constructor.
  - unfold rectangle_fits. cbn. lia.
  - exact (conj Hquiet (conj Hflush (conj Hactive Hdamage))).
Defined.
